(** * hyco-ws: relay URI and token helpers (index.js)

    A shallow embedding of the helper functions that [index.js] adds on
    top of the [ws] WebSocket library: [createRelayToken],
    [appendRelayToken], [createRelayBaseUri], [createRelaySendUri],
    [createRelayListenUri], [relayedConnect] and [createRelayedServer].

    JavaScript strings are modelled as byte strings ([string], one
    [ascii] per byte of the UTF-8 encoding), the numbers that are passed
    in as exact integers ([Z]), the numbers that come out of the
    arithmetic on dates as integers or [NaN], and the Node modules that
    the file requires ([url], [crypto], [moment], [ws]) by executable
    models of their documented behaviour.  [url.parse] is a parameter of
    the two functions that call it; the model [NodeUrl.parse]
    instantiates it on the examples and on the URIs that the builders
    make of a plain namespace and a plain path.  The server class of
    [lib/HybridConnectionWebSocketServer], which [createRelayedServer]
    wraps, is modelled from the specification. *)

From Stdlib Require Import String Ascii List ZArith Lia Bool.
From Stdlib Require Import DecimalString DecimalZ DecimalPos.
Import ListNotations.

Local Open Scope string_scope.

(** ** Strings *)

Module Str.

Definition LF : string := String (ascii_of_nat 10) EmptyString.

(** [s.indexOf(c) != -1] for a one-character needle. *)
Fixpoint contains_char (c : ascii) (s : string) : bool :=
  match s with
  | EmptyString => false
  | String d s' => if Ascii.eqb c d then true else contains_char c s'
  end.

Fixpoint forallb (p : ascii -> bool) (s : string) : bool :=
  match s with
  | EmptyString => true
  | String c s' => p c && forallb p s'
  end.

(** What follows [pat] in [s] when [s] starts with [pat]. *)
Fixpoint strip_prefix (pat s : string) : option string :=
  match pat, s with
  | EmptyString, _ => Some s
  | String c pat', String d s' =>
      if Ascii.eqb c d then strip_prefix pat' s' else None
  | String _ _, EmptyString => None
  end.

(** [split_at pat s] cuts [s] at the first occurrence of [pat]:
    [Some (before, after)], or [None] when [pat] does not occur. *)
Fixpoint split_at (pat s : string) : option (string * string) :=
  match strip_prefix pat s with
  | Some r => Some (EmptyString, r)
  | None =>
      match s with
      | EmptyString => None
      | String c s' =>
          match split_at pat s' with
          | Some (a, b) => Some (String c a, b)
          | None => None
          end
      end
  end.

(** [s.replace(pat, by)] with a string pattern: only the first
    occurrence is replaced. *)
Definition replace_first (pat by_ s : string) : string :=
  match split_at pat s with
  | Some (a, b) => a ++ by_ ++ b
  | None => s
  end.

(** [s.replace(/c/g, by)] for a single character [c]. *)
Fixpoint replace_all_char (c : ascii) (by_ : string) (s : string) : string :=
  match s with
  | EmptyString => EmptyString
  | String d s' =>
      (if Ascii.eqb c d then by_ else String d EmptyString)
        ++ replace_all_char c by_ s'
  end.

Definition starts_with_char (c : ascii) (s : string) : bool :=
  match s with
  | String d _ => Ascii.eqb c d
  | EmptyString => false
  end.

Fixpoint ends_with (suffix s : string) : bool :=
  if String.eqb suffix s then true
  else match s with
       | EmptyString => false
       | String _ s' => ends_with suffix s'
       end.

Definition lower_char (c : ascii) : ascii :=
  let n := nat_of_ascii c in
  if (65 <=? n)%nat && (n <=? 90)%nat then ascii_of_nat (n + 32) else c.

Fixpoint to_lower (s : string) : string :=
  match s with
  | EmptyString => EmptyString
  | String c s' => String (lower_char c) (to_lower s')
  end.

End Str.

(** ** JavaScript values and completions *)

(** The values that [relayedConnect] inspects with [typeof] and
    [!= null].  Objects and functions are opaque and named by an
    identifier. *)
Inductive value : Type :=
| VUndefined
| VNull
| VBool (b : bool)
| VNum (n : Z)
| VStr (s : string)
| VObj (o : nat)
| VFun (f : nat).

(** An optional argument of documented type [A]: left out, passed as
    [null], or given. *)
Inductive optional (A : Type) : Type :=
| Undefined
| Null
| Given (a : A).
Arguments Undefined {A}.
Arguments Null {A}.
Arguments Given {A} a.

(** [x != null]: false on [null] and on [undefined]. *)
Definition not_nullish {A} (x : optional A) : bool :=
  match x with
  | Given _ => true
  | Undefined | Null => false
  end.

Definition value_not_nullish (v : value) : bool :=
  match v with
  | VUndefined | VNull => false
  | _ => true
  end.

Inductive js_type : Type :=
| TUndefined | TObject | TBoolean | TNumber | TString | TFunction.

Definition typeof (v : value) : js_type :=
  match v with
  | VUndefined => TUndefined
  | VNull => TObject
  | VBool _ => TBoolean
  | VNum _ => TNumber
  | VStr _ => TString
  | VObj _ => TObject
  | VFun _ => TFunction
  end.

Definition is_function (v : value) : bool :=
  match typeof v with TFunction => true | _ => false end.

Definition is_object (v : value) : bool :=
  match typeof v with TObject => true | _ => false end.

Inductive error : Type :=
| TypeError
| URIError.

(** The completion of a call: a returned value or a thrown error. *)
Inductive outcome (A : Type) : Type :=
| Return (a : A)
| Throw (e : error).
Arguments Return {A} a.
Arguments Throw {A} e.

Definition bind {A B} (m : outcome A) (k : A -> outcome B) : outcome B :=
  match m with
  | Return a => k a
  | Throw e => Throw e
  end.

Notation "'let*' x ':=' m 'in' k" := (bind m (fun x => k))
  (at level 10, x name, m at level 100, k at level 200).

(** ** Global functions of the language *)

Definition hex_digit (n : nat) : ascii :=
  if (n <? 10)%nat then ascii_of_nat (48 + n) else ascii_of_nat (55 + n).

(** [%XX] with upper-case hexadecimal digits. *)
Definition percent_byte (c : ascii) : string :=
  let n := nat_of_ascii c in
  String "%" (String (hex_digit (n / 16))
                     (String (hex_digit (n mod 16)) EmptyString)).

Definition in_range (lo hi n : nat) : bool := ((lo <=? n) && (n <=? hi))%nat.

Definition is_alnum (c : ascii) : bool :=
  let n := nat_of_ascii c in
  in_range 48 57 n || in_range 65 90 n || in_range 97 122 n.

(** The characters that [encodeURIComponent] leaves alone: letters,
    digits and the nine marks below. *)
Definition uri_unreserved (c : ascii) : bool :=
  is_alnum c || Str.contains_char c "-_.!~*'()".

Definition encode_char (c : ascii) : string :=
  if uri_unreserved c then String c EmptyString else percent_byte c.

(** [encodeURIComponent] on a well-formed string: every byte of the
    UTF-8 encoding outside the unreserved set becomes [%XX]. *)
Fixpoint encodeURIComponent (s : string) : string :=
  match s with
  | EmptyString => EmptyString
  | String c s' => encode_char c ++ encodeURIComponent s'
  end.

Definition hex_value (c : ascii) : option nat :=
  let n := nat_of_ascii c in
  if in_range 48 57 n then Some (n - 48)
  else if in_range 65 70 n then Some (n - 55)
  else if in_range 97 102 n then Some (n - 87)
  else None.

(** [decodeURIComponent]: [None] stands for the [URIError] raised on a
    [%] that is not followed by two hexadecimal digits. *)
Fixpoint decodeURIComponent (s : string) : option string :=
  match s with
  | EmptyString => Some EmptyString
  | String "%" (String h (String l s')) =>
      match hex_value h, hex_value l, decodeURIComponent s' with
      | Some a, Some b, Some r => Some (String (ascii_of_nat (16 * a + b)) r)
      | _, _, _ => None
      end
  | String "%" _ => None
  | String c s' =>
      match decodeURIComponent s' with
      | Some r => Some (String c r)
      | None => None
      end
  end.

(** A number as the arithmetic on dates meets it: an integer, or [NaN],
    the time value of an invalid date. *)
Inductive number : Type :=
| Integer (n : Z)
| NaN.

(** Number-to-string conversion: the decimal digits of an integer, with
    a leading minus sign when it is negative, and the text [NaN].  (The
    integers of 22 digits and more, which are written with an exponent,
    are far beyond the Unix times that are converted here.) *)
Definition number_to_string (x : number) : string :=
  match x with
  | Integer n => NilZero.string_of_int (Z.to_int n)
  | NaN => "NaN"
  end.

(** ** The [crypto] module: HMAC-SHA256 and base64 *)

(** SHA-256 as FIPS 180-4 defines it, on bytes as numbers below 256. *)
Module SHA256.

Local Open Scope Z_scope.

Definition w32 (x : Z) : Z := x mod 2 ^ 32.
Definition add32 (x y : Z) : Z := w32 (x + y).
Definition rotr (n x : Z) : Z :=
  Z.lor (Z.shiftr x n) (w32 (Z.shiftl x (32 - n))).
Definition not32 (x : Z) : Z := Z.lxor x (2 ^ 32 - 1).

Definition Ch (x y z : Z) : Z :=
  Z.lxor (Z.land x y) (Z.land (not32 x) z).
Definition Maj (x y z : Z) : Z :=
  Z.lxor (Z.lxor (Z.land x y) (Z.land x z)) (Z.land y z).
Definition Sigma0 (x : Z) : Z :=
  Z.lxor (Z.lxor (rotr 2 x) (rotr 13 x)) (rotr 22 x).
Definition Sigma1 (x : Z) : Z :=
  Z.lxor (Z.lxor (rotr 6 x) (rotr 11 x)) (rotr 25 x).
Definition sigma0 (x : Z) : Z :=
  Z.lxor (Z.lxor (rotr 7 x) (rotr 18 x)) (Z.shiftr x 3).
Definition sigma1 (x : Z) : Z :=
  Z.lxor (Z.lxor (rotr 17 x) (rotr 19 x)) (Z.shiftr x 10).

Definition is_prime (n : nat) : bool :=
  List.forallb (fun d => negb (n mod d =? 0)%nat) (List.seq 2 (n - 2)).

(** The first sixty-four primes: those up to 311. *)
Definition primes : list Z :=
  List.map Z.of_nat (List.filter is_prime (List.seq 2 310)).

(** The integer cube root, one bit at a time from bit [b - 1] down. *)
Fixpoint cube_root_bits (n : Z) (b : nat) (r : Z) : Z :=
  match b with
  | O => r
  | S b' =>
      let c := r + 2 ^ Z.of_nat b' in
      cube_root_bits n b' (if c * c * c <=? n then c else r)
  end.

(** The round constants: the first 32 bits of the fractional parts of
    the cube roots of the primes. *)
Definition K : list Z :=
  List.map (fun p => w32 (cube_root_bits (p * 2 ^ 96) 36 0)) primes.

(** The initial hash value: the same of the square roots of the first
    eight primes. *)
Definition H0 : list Z :=
  List.map (fun p => w32 (Z.sqrt (p * 2 ^ 64))) (List.firstn 8 primes).

(** Big-endian bytes of a number, [n] of them. *)
Fixpoint be_bytes (n : nat) (x : Z) : list Z :=
  match n with
  | O => []
  | S n' => (x / 256 ^ Z.of_nat n') mod 256 :: be_bytes n' x
  end.

Fixpoint be_words (bs : list Z) : list Z :=
  match bs with
  | a :: b :: c :: d :: r =>
      (((a * 256 + b) * 256 + c) * 256 + d) :: be_words r
  | _ => []
  end.

(** Padding: a byte 128, zeros up to 56 modulo 64, and the bit length
    as a 64-bit big-endian number. *)
Definition pad (msg : list Z) : list Z :=
  let len := Z.of_nat (List.length msg) in
  msg ++ [128] ++ List.repeat 0 (Z.to_nat ((55 - len) mod 64))
      ++ be_bytes 8 (8 * len).

(** One round per constant; [ws] is the sliding window of the sixteen
    most recent words of the message schedule. *)
Fixpoint rounds (ks ws st : list Z) : list Z :=
  match ks, st with
  | k :: ks', [a; b; c; d; e; f; g; h] =>
      let wt := nth 0 ws 0 in
      let t1 := add32 (add32 (add32 (add32 h (Sigma1 e)) (Ch e f g)) k) wt in
      let t2 := add32 (Sigma0 a) (Maj a b c) in
      let wn := add32 (add32 (add32 (sigma1 (nth 14 ws 0)) (nth 9 ws 0))
                             (sigma0 (nth 1 ws 0))) wt in
      rounds ks' (List.tl ws ++ [wn])
             [add32 t1 t2; a; b; c; add32 d t1; e; f; g]
  | _, _ => st
  end.

Definition compress (st block : list Z) : list Z :=
  List.map (fun p => add32 (fst p) (snd p))
           (List.combine st (rounds K (be_words block) st)).

Fixpoint blocks (fuel : nat) (st bs : list Z) : list Z :=
  match fuel, bs with
  | S fuel', _ :: _ =>
      blocks fuel' (compress st (List.firstn 64 bs)) (List.skipn 64 bs)
  | _, _ => st
  end.

Definition digest (msg : list Z) : list Z :=
  let p := pad msg in
  List.flat_map (be_bytes 4) (blocks (List.length p) H0 p).

End SHA256.

Definition bytes_of_string (s : string) : list Z :=
  List.map (fun c => Z.of_nat (nat_of_ascii c)) (list_ascii_of_string s).

Definition string_of_bytes (bs : list Z) : string :=
  string_of_list_ascii (List.map (fun b => ascii_of_nat (Z.to_nat b)) bs).

Definition sha256 (s : string) : string :=
  string_of_bytes (SHA256.digest (bytes_of_string s)).

(** HMAC (RFC 2104) with SHA-256: blocks of 64 bytes, a key longer than
    a block is hashed first. *)
Definition hmac_key_block (key : string) : list Z :=
  let k := if (64 <? String.length key)%nat then sha256 key else key in
  let kb := bytes_of_string k in
  (kb ++ List.repeat 0%Z (64 - List.length kb))%list.

Definition hmac_sha256 (key msg : string) : string :=
  let kb := hmac_key_block key in
  let ipad := string_of_bytes (List.map (Z.lxor 54) kb) in
  let opad := string_of_bytes (List.map (Z.lxor 92) kb) in
  sha256 (opad ++ sha256 (ipad ++ msg)).

Module Base64.

Definition char_of (i : nat) : ascii :=
  if (i <? 26)%nat then ascii_of_nat (65 + i)
  else if (i <? 52)%nat then ascii_of_nat (97 + (i - 26))
  else if (i <? 62)%nat then ascii_of_nat (48 + (i - 52))
  else if (i =? 62)%nat then "+"%char
  else "/"%char.

Definition index_of (c : ascii) : option nat :=
  let n := nat_of_ascii c in
  if in_range 65 90 n then Some (n - 65)
  else if in_range 97 122 n then Some (n - 71)
  else if in_range 48 57 n then Some (n + 4)
  else if (n =? 43)%nat then Some 62
  else if (n =? 47)%nat then Some 63
  else None.

Fixpoint encode (s : string) : string :=
  match s with
  | EmptyString => EmptyString
  | String x EmptyString =>
      let a := nat_of_ascii x in
      String (char_of (a / 4)) (String (char_of (a mod 4 * 16)) "==")
  | String x (String y EmptyString) =>
      let a := nat_of_ascii x in
      let b := nat_of_ascii y in
      String (char_of (a / 4))
        (String (char_of (a mod 4 * 16 + b / 16))
           (String (char_of (b mod 16 * 4)) "="))
  | String x (String y (String z r)) =>
      let a := nat_of_ascii x in
      let b := nat_of_ascii y in
      let c := nat_of_ascii z in
      String (char_of (a / 4))
        (String (char_of (a mod 4 * 16 + b / 16))
           (String (char_of (b mod 16 * 4 + c / 64))
              (String (char_of (c mod 64)) (encode r))))
  end.

Definition is_pad (c : ascii) : bool := Ascii.eqb c "="%char.

(** A strict decoder: groups of four characters, padding only in the
    last group. *)
Fixpoint decode (s : string) : option string :=
  match s with
  | EmptyString => Some EmptyString
  | String c1 (String c2 (String c3 (String c4 r))) =>
      match index_of c1, index_of c2 with
      | Some s1, Some s2 =>
          let x := ascii_of_nat (s1 * 4 + s2 / 16) in
          if is_pad c4 then
            match r with
            | EmptyString =>
                if is_pad c3 then Some (String x EmptyString)
                else match index_of c3 with
                     | Some s3 =>
                         Some (String x
                                (String (ascii_of_nat (s2 mod 16 * 16 + s3 / 4))
                                        EmptyString))
                     | None => None
                     end
            | _ => None
            end
          else
            match index_of c3, index_of c4, decode r with
            | Some s3, Some s4, Some t =>
                Some (String x
                       (String (ascii_of_nat (s2 mod 16 * 16 + s3 / 4))
                          (String (ascii_of_nat (s3 mod 4 * 64 + s4)) t)))
            | _, _, _ => None
            end
      | _, _ => None
      end
  | _ => None
  end.

End Base64.

(** [crypto.createHmac('sha256', key).update(data).digest('base64')] *)
Definition hmac_sha256_base64 (key data : string) : string :=
  Base64.encode (hmac_sha256 key data).

(** Two upper-case hexadecimal digits per byte, to show digests. *)
Fixpoint hex (s : string) : string :=
  match s with
  | EmptyString => EmptyString
  | String c s' =>
      let n := nat_of_ascii c in
      String (hex_digit (n / 16)) (String (hex_digit (n mod 16)) (hex s'))
  end.

(** ** The [url] module (legacy API) *)

(** The object returned by [url.parse]; a field is [None] when it is
    [null].  Without [parseQueryString] the [query] field is a string. *)
Record Url : Type := mkUrl {
  protocol : option string;
  slashes : bool;
  auth : option string;
  host : option string;
  port : option string;
  hostname : option string;
  hash : option string;
  search : option string;
  query : option string;
  pathname : option string;
  path : option string;
  href : option string
}.

Definition set_protocol (u : Url) (v : option string) : Url :=
  mkUrl v (slashes u) (auth u) (host u) (port u) (hostname u) (hash u)
        (search u) (query u) (pathname u) (path u) (href u).

Definition set_port (u : Url) (v : option string) : Url :=
  mkUrl (protocol u) (slashes u) (auth u) (host u) v (hostname u) (hash u)
        (search u) (query u) (pathname u) (path u) (href u).

Definition set_hash (u : Url) (v : option string) : Url :=
  mkUrl (protocol u) (slashes u) (auth u) (host u) (port u) (hostname u) v
        (search u) (query u) (pathname u) (path u) (href u).

Definition set_search (u : Url) (v : option string) : Url :=
  mkUrl (protocol u) (slashes u) (auth u) (host u) (port u) (hostname u)
        (hash u) v (query u) (pathname u) (path u) (href u).

Definition set_pathname (u : Url) (v : option string) : Url :=
  mkUrl (protocol u) (slashes u) (auth u) (host u) (port u) (hostname u)
        (hash u) (search u) (query u) v (path u) (href u).

(** [x || ''] for a field that is [null] or a string. *)
Definition or_empty (x : option string) : string :=
  match x with
  | Some s => s
  | None => EmptyString
  end.

Definition is_empty (s : string) : bool :=
  match s with
  | EmptyString => true
  | _ => false
  end.

Definition slashedProtocol (p : string) : bool :=
  existsb (String.eqb p)
          ["http"; "http:"; "https"; "https:"; "ftp"; "ftp:"; "gopher";
           "gopher:"; "file"; "file:"; "ws"; "ws:"; "wss"; "wss:"].

Definition hostlessProtocol (p : string) : bool :=
  existsb (String.eqb p) ["javascript"; "javascript:"].

Definition auth_unescaped (c : ascii) : bool :=
  uri_unreserved c || Ascii.eqb c ":".

Fixpoint encode_auth (s : string) : string :=
  match s with
  | EmptyString => EmptyString
  | String c s' =>
      (if auth_unescaped c then String c EmptyString else percent_byte c)
        ++ encode_auth s'
  end.

Definition format_auth (u : Url) : string :=
  let a := or_empty (auth u) in
  if is_empty a then EmptyString else encode_auth a ++ "@".

Definition format_protocol (u : Url) : string :=
  let p := or_empty (protocol u) in
  if is_empty p then p
  else if Str.ends_with ":" p then p else p ++ ":".

Definition is_ipv6_hostname (h : string) : bool :=
  Str.starts_with_char "[" h && Str.ends_with "]" h.

(** The authority before the [//] decision: [host] when it is set,
    otherwise [hostname] and [port]. *)
Definition format_host (u : Url) : string :=
  let h := or_empty (host u) in
  if negb (is_empty h) then format_auth u ++ h
  else
    let hn := or_empty (hostname u) in
    if negb (is_empty hn) then
      format_auth u
        ++ (if Str.contains_char ":" hn && negb (is_ipv6_hostname hn)
            then "[" ++ hn ++ "]" else hn)
        ++ (let p := or_empty (port u) in
            if is_empty p then EmptyString else ":" ++ p)
    else EmptyString.

Definition escape_pathname (p : string) : string :=
  Str.replace_all_char "?" "%3F" (Str.replace_all_char "#" "%23" p).

(** The [(host, pathname)] pair after the slashes are settled. *)
Definition format_host_path (u : Url) : string * string :=
  let proto := format_protocol u in
  let h := format_host u in
  let p := escape_pathname (or_empty (pathname u)) in
  if slashes u || slashedProtocol proto then
    if slashes u || negb (is_empty h) then
      ("//" ++ h,
       if negb (is_empty p) && negb (Str.starts_with_char "/" p)
       then "/" ++ p else p)
    else if String.prefix "file" proto then ("//", p)
    else (h, p)
  else (h, p).

Definition format_search (u : Url) : string :=
  let s := Str.replace_all_char "#" "%23" (or_empty (search u)) in
  if negb (is_empty s) && negb (Str.starts_with_char "?" s)
  then "?" ++ s else s.

Definition format_hash (u : Url) : string :=
  let h := or_empty (hash u) in
  if negb (is_empty h) && negb (Str.starts_with_char "#" h)
  then "#" ++ h else h.

(** [url.format(urlObject)] on an object whose [query] is not an
    object: [protocol + host + pathname + search + hash].  As the
    documentation of [url.format] has it, the authority is [host] when
    that field is set, and [hostname] with [port] only otherwise. *)
Definition url_format (u : Url) : string :=
  format_protocol u
    ++ fst (format_host_path u) ++ snd (format_host_path u)
    ++ format_search u ++ format_hash u.

(** A model of [url.parse(s)] (one argument).  It follows the parser's
    steps: protocol, [//], authority with user information and port,
    escaping of the remainder, fragment, query and path.  Not modelled
    are the steps that rewrite or refuse the input before or during the
    authority scan: trimming of white space and control characters,
    conversion of backslashes, host name validation (which moves what
    follows a character that no host name has into the path), IDNA,
    IPv6 literals, and the check that decoded user information is
    well-formed UTF-8.  The model is therefore used only where none of
    these steps applies: on the example URIs, and on the URIs made of a
    namespace and a path that are plain in the sense of [plain_host]
    and [plain_path] below. *)
Module NodeUrl.

Definition proto_char (c : ascii) : bool :=
  is_alnum c || Str.contains_char c ".+-".

(** [/^[a-z0-9.+-]+:/i]: the matched protocol (with its colon) and
    the rest. *)
Fixpoint scan_protocol (s : string) : option (string * string) :=
  match s with
  | EmptyString => None
  | String c s' =>
      if Ascii.eqb c ":" then Some (":", s')
      else if proto_char c then
        match scan_protocol s' with
        | Some (p, r) => Some (String c p, r)
        | None => None
        end
      else None
  end.

Definition match_protocol (s : string) : option (string * string) :=
  match scan_protocol s with
  | Some (p, r) => if String.eqb p ":" then None else Some (p, r)
  | None => None
  end.

(** Cut before the first character that satisfies [p]. *)
Fixpoint break_at (p : ascii -> bool) (s : string) : string * string :=
  match s with
  | EmptyString => (EmptyString, EmptyString)
  | String c s' =>
      if p c then (EmptyString, s)
      else let (a, b) := break_at p s' in (String c a, b)
  end.

(** Cut at the last occurrence of [c], which is dropped. *)
Fixpoint split_last (c : ascii) (s : string) : option (string * string) :=
  match s with
  | EmptyString => None
  | String d s' =>
      match split_last c s' with
      | Some (a, b) => Some (String d a, b)
      | None => if Ascii.eqb c d then Some (EmptyString, s') else None
      end
  end.

Definition host_ending (c : ascii) : bool := Str.contains_char c "#/?".

(** The characters that the parser always escapes in the remainder, by
    their codes: tab, line feed, carriage return, space, double quote,
    single quote, angle brackets, backslash, circumflex, grave accent,
    braces and vertical bar. *)
Definition auto_escaped (c : ascii) : bool :=
  List.existsb (Nat.eqb (nat_of_ascii c))
               [9; 10; 13; 32; 34; 39; 60; 62; 92; 94; 96; 123; 124; 125]%nat.

Definition non_host (c : ascii) : bool :=
  auto_escaped c || Str.contains_char c "%;".

Fixpoint auto_escape (s : string) : string :=
  match s with
  | EmptyString => EmptyString
  | String c s' =>
      (if auto_escaped c then percent_byte c else String c EmptyString)
        ++ auto_escape s'
  end.

Definition is_digit (c : ascii) : bool := in_range 48 57 (nat_of_ascii c).

(** [/^\/\/[^@\/]+@[^@\/]+/] *)
Definition has_slashed_auth (s : string) : bool :=
  match s with
  | String "/" (String "/" r) =>
      let stop c := Ascii.eqb c "@" || Ascii.eqb c "/" in
      let (a, b) := break_at stop r in
      negb (is_empty a) &&
      match b with
      | String "@" (String c _) => negb (stop c)
      | _ => false
      end
  | _ => false
  end.

Definition some_if_nonempty (s : string) : option string :=
  if is_empty s then None else Some s.

(** [parseHost]: the [(hostname, port)] of an authority without user
    information. *)
Definition parseHost (h : string) : option string * option string :=
  match split_last ":" h with
  | Some (a, p) =>
      if Str.forallb is_digit p
      then (some_if_nonempty a, some_if_nonempty p)
      else (some_if_nonempty h, None)
  | None => (some_if_nonempty h, None)
  end.

Definition parse (s : string) : outcome Url :=
  let (proto, rest) :=
    match match_protocol s with
    | Some (p, r) => (Some (Str.to_lower p), r)
    | None => (None, s)
    end in
  let lower := or_empty proto in
  let has_proto := match proto with Some _ => true | None => false end in
  let sl :=
    (has_proto || has_slashed_auth rest) && String.prefix "//" rest in
  let strip := sl && negb (has_proto && hostlessProtocol lower) in
  let rest := if strip then String.substring 2 (String.length rest) rest
              else rest in
  let with_host :=
    negb (hostlessProtocol lower) &&
    (sl || (has_proto && negb (slashedProtocol lower))) in
  let* authority :=
    (if with_host then
       let (seg, tail) := break_at host_ending rest in
       let (au, hp) :=
         match split_last "@" seg with
         | Some (a, h) => (Some a, h)
         | None => (None, seg)
         end in
       let (h, extra) := break_at non_host hp in
       let (hn, pt) := parseHost h in
       let hn := Str.to_lower (or_empty hn) in
       let hst := hn ++ match pt with Some p => ":" ++ p | None => "" end in
       match au with
       | Some a =>
           match decodeURIComponent a with
           | Some d => Return (Some d, Some hst, pt, Some hn, extra ++ tail)
           | None => Throw URIError
           end
       | None => Return (None, Some hst, pt, Some hn, extra ++ tail)
       end
     else Return (None, None, None, None, rest)) in
  let '(au, hst, pt, hn, rest) := authority in
  let rest := if hostlessProtocol lower then rest else auto_escape rest in
  let (rest, hsh) := break_at (Ascii.eqb "#") rest in
  let (rest, srch) := break_at (Ascii.eqb "?") rest in
  let pn :=
    if negb (is_empty rest) then Some rest
    else if slashedProtocol lower && negb (is_empty (or_empty hn))
    then Some "/" else None in
  let u :=
    mkUrl proto strip au hst pt hn
          (some_if_nonempty hsh) (some_if_nonempty srch)
          (match srch with String _ q => Some q | EmptyString => None end)
          pn
          (match pn, some_if_nonempty srch with
           | None, None => None
           | _, _ => Some (or_empty pn ++ srch)
           end)
          None in
  Return (mkUrl (protocol u) (slashes u) (auth u) (host u) (port u)
                (hostname u) (hash u) (search u) (query u) (pathname u)
                (path u) (Some (url_format u))).

End NodeUrl.

(** ** The world: clock, sockets and calls *)

(** The options object handed to the [ws] constructor. *)
Record ws_options : Type := mkOptions {
  headers : list (string * value);
  agent : option value
}.

(** The closure [function() { f(client) }]: what it calls and on which
    connection handle. *)
Inductive listener : Type :=
| Invoke (callee : value) (client : nat).

(** A [ws] client as [new WS(address, protocols, options)] leaves it,
    with the listeners registered on it by [on]. *)
Record ws_client : Type := mkClient {
  address : string;
  protocols : value;
  options : option ws_options;
  listeners : list (string * listener)
}.

Record world : Type := mkWorld {
  clock_ms : Z;                 (* milliseconds since the epoch *)
  clients : list ws_client;     (* a handle is an index in this list *)
  calls : list (nat * nat)      (* user functions called, with their argument *)
}.

(** Computations that read and change the world and may throw. *)
Definition M (A : Type) : Type := world -> outcome A * world.

Definition ret {A} (a : A) : M A := fun w => (Return a, w).
Definition throw {A} (e : error) : M A := fun w => (Throw e, w).
Definition lift {A} (o : outcome A) : M A := fun w => (o, w).

Definition mbind {A B} (m : M A) (k : A -> M B) : M B :=
  fun w =>
    match m w with
    | (Return a, w') => k a w'
    | (Throw e, w') => (Throw e, w')
    end.

Notation "x <- m ;; k" := (mbind m (fun x => k))
  (at level 61, m at next level, right associativity).
Notation "m ;;; k" := (mbind m (fun _ => k))
  (at level 61, right associativity).

Module Moment.

(** The time value of a [Date] lies within 8.64e15 milliseconds of the
    epoch.  [TimeClip] turns any other number into [NaN]: the date, and
    the moment that wraps it, is then invalid. *)
Definition max_time : Z := 8640000000000000.

Definition valid_time (t : Z) : bool := (Z.abs t <=? max_time)%Z.

Definition time_clip (t : Z) : number :=
  if valid_time t then Integer t else NaN.

(** [moment()]: the current instant, in milliseconds. *)
Definition now : M Z := fun w => (Return (clock_ms w), w).

(** [m.add(n, 'seconds')] on the moment made of the time [m]: the date
    inside is set to its time value plus [n * 1000] with [setTime], which
    clips; an invalid moment stays invalid. *)
Definition add_seconds (m n : Z) : number :=
  match time_clip m with
  | Integer t => time_clip (t + n * 1000)
  | NaN => NaN
  end.

(** [m.unix()]: [Math.floor(m.valueOf() / 1000)]. *)
Definition unix (m : number) : number :=
  match m with
  | Integer t => Integer (t / 1000)
  | NaN => NaN
  end.

End Moment.

Module WS.

(** [new WS(address, protocols, options)] where the constructor accepts
    what it is given: the new client's handle.  The constructor's own
    checks are not modelled (it raises an error on an address that is
    not a WebSocket URL, and on an agent that is not an HTTP agent);
    [relayedConnect_with] below takes the constructor as a parameter
    instead. *)
Definition new (addr : string) (protos : value) (opt : option ws_options)
  : M nat :=
  fun w =>
    (Return (List.length (clients w)),
     mkWorld (clock_ms w)
             (clients w ++ [mkClient addr protos opt []])
             (calls w)).

Definition add_listener (ev : string) (l : listener) (c : ws_client)
  : ws_client :=
  mkClient (address c) (protocols c) (options c)
           (listeners c ++ [(ev, l)]).

Fixpoint update {A} (n : nat) (f : A -> A) (l : list A) : list A :=
  match l, n with
  | [], _ => []
  | x :: r, O => f x :: r
  | x :: r, S n' => x :: update n' f r
  end.

(** [client.on(event, listener)] *)
Definition on (client : nat) (ev : string) (l : listener) : M unit :=
  fun w =>
    (Return tt,
     mkWorld (clock_ms w)
             (update client (add_listener ev l) (clients w))
             (calls w)).

(** Running a listener: a call of a function is recorded, a call of
    anything else is a [TypeError]. *)
Definition run (l : listener) : M unit :=
  match l with
  | Invoke (VFun f) c =>
      fun w => (Return tt,
                mkWorld (clock_ms w) (clients w) (calls w ++ [(f, c)]))
  | Invoke _ _ => throw TypeError
  end.

Fixpoint run_all (ev : string) (ls : list (string * listener)) : M unit :=
  match ls with
  | [] => ret tt
  | (e, l) :: r =>
      if String.eqb e ev then run l ;;; run_all ev r else run_all ev r
  end.

(** [client.emit(event)]: the listeners of the event, in the order of
    their registration. *)
Definition emit (client : nat) (ev : string) : M unit :=
  fun w =>
    match nth_error (clients w) client with
    | Some c => run_all ev (listeners c) w
    | None => (Return tt, w)
    end.

End WS.

(** ** index.js *)

(** [if (!expirationSeconds) expirationSeconds = 3600], lines 83-86. *)
Definition effective_expiration (expirationSeconds : optional Z) : Z :=
  match expirationSeconds with
  | Given n => if Z.eqb n 0 then 3600%Z else n
  | Undefined | Null => 3600%Z
  end.

(** [s + x] for a field [x] that is [null] or a string. *)
Definition to_string_field (x : option string) : string :=
  match x with
  | Some s => s
  | None => "null"
  end.

Section Tokens.

(** [url.parse], with [Throw] for the errors it raises. *)
Variable url_parse : string -> outcome Url.

(** Lines 77-81 of [createRelayToken]: the value of [uri] after the
    normalisation, the signed resource. *)
Definition signed_resource (uri : string) : outcome string :=
  let* parsedUrl := url_parse uri in
  let parsedUrl := set_protocol parsedUrl (Some "http") in
  let parsedUrl := set_search (set_hash (set_port parsedUrl None) None) None in
  let* replaced :=
    match pathname parsedUrl with
    | Some p => Return (Str.replace_first "$hc/" "" p)
    | None => Throw TypeError
    end in
  let parsedUrl := set_pathname parsedUrl (Some replaced) in
  Return (url_format parsedUrl).

Definition createRelayToken (uri keyName key : string)
           (expirationSeconds : optional Z) : M string :=
  uri <- lift (signed_resource uri) ;;
  let expirationSeconds := effective_expiration expirationSeconds in
  now <- Moment.now ;;
  let unixSeconds := Moment.unix (Moment.add_seconds now expirationSeconds) in
  let string_to_sign :=
    encodeURIComponent uri ++ Str.LF ++ number_to_string unixSeconds in
  let signature := hmac_sha256_base64 key string_to_sign in
  let token :=
    "SharedAccessSignature sr=" ++ encodeURIComponent uri
      ++ "&sig=" ++ encodeURIComponent signature
      ++ "&se=" ++ number_to_string unixSeconds
      ++ "&skn=" ++ keyName in
  ret token.

Definition appendRelayToken (uri keyName key : string)
           (expirationSeconds : optional Z) : M string :=
  token <- createRelayToken uri keyName key expirationSeconds ;;
  parsedUrl <- lift (url_parse uri) ;;
  let parsedUrl :=
    set_search parsedUrl
      (Some (to_string_field (search parsedUrl)
               ++ "&sb-hc-token=" ++ encodeURIComponent token)) in
  ret (url_format parsedUrl).

End Tokens.

Definition createRelayBaseUri (serviceBusNamespace path : string) : string :=
  "wss://" ++ serviceBusNamespace ++ ":443/$hc/" ++ path.

Definition createRelaySendUri (serviceBusNamespace path : string)
           (token id : optional string) : string :=
  let uri := createRelayBaseUri serviceBusNamespace path in
  let uri := uri ++ (if negb (Str.contains_char "?" uri) then "?" else "&")
                 ++ "sb-hc-action=connect" in
  let uri := match token with
             | Given t => uri ++ "&sb-hc-token=" ++ encodeURIComponent t
             | Undefined | Null => uri
             end in
  let uri := match id with
             | Given i => uri ++ "&sb-hc-id=" ++ encodeURIComponent i
             | Undefined | Null => uri
             end in
  uri.

Definition createRelayListenUri (serviceBusNamespace path : string)
           (token id : optional string) : string :=
  let uri := createRelayBaseUri serviceBusNamespace path in
  let uri := uri ++ (if negb (Str.contains_char "?" uri) then "?" else "&")
                 ++ "sb-hc-action=listen" in
  let uri := match token with
             | Given t => uri ++ "&sb-hc-token=" ++ encodeURIComponent t
             | Undefined | Null => uri
             end in
  let uri := match id with
             | Given i => uri ++ "&sb-hc-id=" ++ encodeURIComponent i
             | Undefined | Null => uri
             end in
  uri.

Definition relayedConnect (address : string) (token agent fn : value)
  : M nat :=
  let opt :=
    if value_not_nullish token
    then Some (mkOptions [("ServiceBusAuthorization", token)] None)
    else None in
  opt <- (if value_not_nullish agent && is_object agent then
            match opt with
            | Some o => ret (Some (mkOptions (headers o) (Some agent)))
            | None => throw TypeError
            end
          else ret opt) ;;
  client <- WS.new address VNull opt ;;
  (if is_function fn
   then WS.on client "open" (Invoke fn client) else ret tt) ;;;
  (if is_function agent
   then WS.on client "open" (Invoke fn client) else ret tt) ;;;
  ret client.

(** [relayedConnect] with the constructor of the [ws] library as a
    parameter, [Throw] standing for what the constructor raises on an
    address or on options that it refuses.  [relayedConnect] above is the
    instance at [WS.new], the constructor where it accepts what it is
    given. *)
Section Constructor.

Variable construct : string -> value -> option ws_options -> M nat.

Definition relayedConnect_with (address : string) (token agent fn : value)
  : M nat :=
  let opt :=
    if value_not_nullish token
    then Some (mkOptions [("ServiceBusAuthorization", token)] None)
    else None in
  opt <- (if value_not_nullish agent && is_object agent then
            match opt with
            | Some o => ret (Some (mkOptions (headers o) (Some agent)))
            | None => throw TypeError
            end
          else ret opt) ;;
  client <- construct address VNull opt ;;
  (if is_function fn
   then WS.on client "open" (Invoke fn client) else ret tt) ;;;
  (if is_function agent
   then WS.on client "open" (Invoke fn client) else ret tt) ;;;
  ret client.

End Constructor.

(** ** Reading a token back *)

(** The fields of the wire format
    [SharedAccessSignature sr=..&sig=..&se=..&skn=..], cut at the field
    separators in this order: [(sr, sig, se, skn)] as they stand in the
    token, still URI-encoded. *)
Definition parse_sas_token (token : string)
  : option (string * string * string * string) :=
  match Str.strip_prefix "SharedAccessSignature sr=" token with
  | Some r1 =>
      match Str.split_at "&sig=" r1 with
      | Some (sr, r2) =>
          match Str.split_at "&se=" r2 with
          | Some (sig, r3) =>
              match Str.split_at "&skn=" r3 with
              | Some (se, skn) => Some (sr, sig, se, skn)
              | None => None
              end
          | None => None
          end
      | None => None
      end
  | None => None
  end.

(** What a verifier that holds [key] recomputes from the fields of a
    token: the HMAC over [sr], a line feed and [se], to be compared with
    the decoded [sig]. *)
Definition recomputed_signature (key sr se : string) : string :=
  hmac_sha256 key (sr ++ Str.LF ++ se).

Definition decoded_signature (sig : string) : option string :=
  match decodeURIComponent sig with
  | Some b64 => Base64.decode b64
  | None => None
  end.

(** ** Example data *)

(** 2021-01-01T00:00:00Z, no sockets yet. *)
Definition world_2021 : world := mkWorld 1609459200000 [] [].

(** The same instant, with a socket open and a call made. *)
Definition busy_world_2021 : world :=
  mkWorld 1609459200000 [mkClient "wss://x" VNull None []] [(1, 0)%nat].

Definition example_uri : string :=
  "https://contoso.servicebus.windows.net/$hc/foo?x=1#frag".

(** What [url.parse] makes of [example_uri]. *)
Definition example_url : Url :=
  {| protocol := Some "https:";
     slashes := true;
     auth := None;
     host := Some "contoso.servicebus.windows.net";
     port := None;
     hostname := Some "contoso.servicebus.windows.net";
     hash := Some "#frag";
     search := Some "?x=1";
     query := Some "x=1";
     pathname := Some "/$hc/foo";
     path := Some "/$hc/foo?x=1";
     href := Some "https://contoso.servicebus.windows.net/$hc/foo?x=1#frag" |}.

(** The token for [example_uri], key name [RootManageSharedAccessKey],
    key [secret] and 60 seconds, issued in [world_2021]. *)
Definition example_token : string :=
  "SharedAccessSignature sr=http%3A%2F%2Fcontoso.servicebus.windows.net%2Ffoo&sig=c692ppXoa01tljkeMIvvMnMMidgx1oRFi7WNO0jvfTU%3D&se=1609459260&skn=RootManageSharedAccessKey".

(** ** Reading numbers and query parameters back *)


(** The pieces of [s] between the occurrences of [c]. *)
Fixpoint split_on (c : ascii) (s : string) : list string :=
  match s with
  | EmptyString => [EmptyString]
  | String d s' =>
      if Ascii.eqb c d then EmptyString :: split_on c s'
      else match split_on c s' with
           | x :: r => String d x :: r
           | [] => [String d EmptyString]
           end
  end.

(** The decoded value of the first [name=value] among [params]. *)
Fixpoint lookup_parameter (name : string) (params : list string)
  : option string :=
  match params with
  | [] => None
  | x :: r =>
      match Str.strip_prefix (name ++ "=") x with
      | Some v => decodeURIComponent v
      | None => lookup_parameter name r
      end
  end.

(** The value of the query parameter [name] of a URI: the query starts
    after the first question mark and its parameters are separated by
    ampersands. *)
Definition query_parameter (name uri : string) : option string :=
  match Str.split_at "?" uri with
  | Some (_, q) => lookup_parameter name (split_on "&" q)
  | None => None
  end.

Definition given {A} (x : optional A) : option A :=
  match x with
  | Given a => Some a
  | Undefined | Null => None
  end.

(** The parameters that the builders write after the action. *)
Definition optional_parameters (token id : optional string) : list string :=
  List.app
    match token with
    | Given t => ["sb-hc-token=" ++ encodeURIComponent t]
    | Undefined | Null => []
    end
    match id with
    | Given i => ["sb-hc-id=" ++ encodeURIComponent i]
    | Undefined | Null => []
    end.

(** ** Connections, summed up *)

Definition count_if (b : bool) : nat := if b then 1 else 0.

(** The options that [relayedConnect] hands to the constructor when it
    gets that far. *)
Definition connect_options (token agent : value) : option ws_options :=
  if value_not_nullish token
  then Some (mkOptions [("ServiceBusAuthorization", token)]
                       (if value_not_nullish agent && is_object agent
                        then Some agent else None))
  else None.

(** ** Plain namespaces and paths *)

(** A namespace that [url.parse] takes as a host name as it stands, on
    which none of the steps that [NodeUrl.parse] leaves out applies: a
    DNS name of at most 255 characters, made of labels separated by
    dots. *)
Definition host_label_char (c : ascii) : bool :=
  is_alnum c || Ascii.eqb c "-".

(** A label: one to 63 letters, digits and hyphens, with no hyphen at
    either end and no two hyphens in a row, which also leaves out the
    [xn--] labels of internationalised names. *)
Definition plain_label (l : string) : bool :=
  negb (is_empty l) && (String.length l <=? 63)%nat
  && Str.forallb host_label_char l
  && negb (Str.starts_with_char "-" l) && negb (Str.ends_with "-" l)
  && match Str.split_at "--" l with
     | None => true
     | Some _ => false
     end.

Definition plain_host (ns : string) : bool :=
  (String.length ns <=? 255)%nat && List.forallb plain_label (split_on "." ns).

(** A path of printable ASCII characters without white space, query,
    fragment and the characters that [url.parse] escapes. *)
Definition plain_path_char (c : ascii) : bool :=
  in_range 33 126 (nat_of_ascii c)
  && negb (Ascii.eqb c "?" || Ascii.eqb c "#" || NodeUrl.auto_escaped c).

Definition plain_path (p : string) : bool := Str.forallb plain_path_char p.

(** The query of a relay URI as it follows the path, if there is one. *)
Definition relay_tail (qs : option string) : string :=
  match qs with
  | Some q => "?" ++ q
  | None => ""
  end.

(** ** The relayed server *)

(** Modelled from the spec: the server class of
    [lib/HybridConnectionWebSocketServer], which [index.js] requires and
    which is not part of the sources at hand.  The specification makes
    it an event emitter configured by [options] that emits one
    [connection] event per accepted connection, with the connection
    handle.  A server is kept as its options and its listeners. *)
Record relayed_server : Type := mkServer {
  server_options : value;
  server_listeners : list (string * value)
}.

Record server_world : Type := mkServerWorld {
  servers : list relayed_server;    (* a handle is an index in this list *)
  handled : list (nat * nat)        (* user functions called, with the connection *)
}.

Module RelayedServer.

(** [new WS.RelayedServer(options)] *)
Definition new (options : value) (sw : server_world) : nat * server_world :=
  (List.length (servers sw),
   mkServerWorld (servers sw ++ [mkServer options []]) (handled sw)).

(** [server.on(event, fn)] *)
Definition on (server : nat) (ev : string) (fn : value) (sw : server_world)
  : server_world :=
  mkServerWorld
    (WS.update server
               (fun s => mkServer (server_options s)
                                  (server_listeners s ++ [(ev, fn)]))
               (servers sw))
    (handled sw).



End RelayedServer.


(** ** More example data *)

Definition plain_uri : string := "ws://contoso.servicebus.windows.net/$hc/foo".

Definition plain_url : Url :=
  {| protocol := Some "ws:";
     slashes := true;
     auth := None;
     host := Some "contoso.servicebus.windows.net";
     port := None;
     hostname := Some "contoso.servicebus.windows.net";
     hash := None;
     search := None;
     query := None;
     pathname := Some "/$hc/foo";
     path := Some "/$hc/foo";
     href := Some "ws://contoso.servicebus.windows.net/$hc/foo" |}.

Definition nested_url : Url :=
  {| protocol := Some "https:";
     slashes := true;
     auth := None;
     host := Some "h";
     port := None;
     hostname := Some "h";
     hash := None;
     search := None;
     query := None;
     pathname := Some "/a/$hc/b/$hc/c";
     path := Some "/a/$hc/b/$hc/c";
     href := Some "https://h/a/$hc/b/$hc/c" |}.


Definition no_query_uri : string := "http://h/p#f".

Definition no_query_url : Url :=
  {| protocol := Some "http:";
     slashes := true;
     auth := None;
     host := Some "h";
     port := None;
     hostname := Some "h";
     hash := Some "#f";
     search := None;
     query := None;
     pathname := Some "/p";
     path := Some "/p";
     href := Some "http://h/p#f" |}.

(** The token for [no_query_uri], key name [k], key [secret] and the
    default expiration, issued in [world_2021]. *)
Definition no_query_token : string :=
  "SharedAccessSignature sr=http%3A%2F%2Fh%2Fp&sig=2GmGXJcAvNUNTz3LtmIYClaiC2xuv8P8Yt2IiVmcCjU%3D&se=1609462800&skn=k".

(** * The models of [crypto] and [url] on published examples *)

(** FIPS 180-4, the one-block message. *)
Example sha256_abc :
  hex (sha256 "abc")
  = "BA7816BF8F01CFEA414140DE5DAE2223B00361A396177A9CB410FF61F20015AD".
Proof. vm_compute. reflexivity. Qed.

(** RFC 4231, test case 2. *)
Example hmac_sha256_rfc4231 :
  hex (hmac_sha256 "Jefe" "what do ya want for nothing?")
  = "5BDCC146BF60754E6A042426089575C75A003F089D2739839DEC58B964EC3843".
Proof. vm_compute. reflexivity. Qed.

(** RFC 4231, test case 6: a key longer than a block. *)
Example hmac_sha256_long_key :
  hex (hmac_sha256 (string_of_bytes (List.repeat 170%Z 131))
         "Test Using Larger Than Block-Size Key - Hash Key First")
  = "60E431591EE0B67F0D8A26AACBF5B77F8E0BC6213728C5140546040F0EE37F54".
Proof. vm_compute. reflexivity. Qed.

(** RFC 4648, section 10. *)
Example base64_foobar :
  Base64.encode "foobar" = "Zm9vYmFy" /\ Base64.encode "fooba" = "Zm9vYmE="
  /\ Base64.encode "foob" = "Zm9vYg==".
Proof. repeat split. Qed.

Example parse_example_uri : NodeUrl.parse example_uri = Return example_url.
Proof. vm_compute. reflexivity. Qed.

(** A URI with an explicit port: [host] holds the port as well. *)
Example parse_base_uri :
  NodeUrl.parse (createRelayBaseUri "contoso.servicebus.windows.net" "foo")
  = Return {| protocol := Some "wss:";
              slashes := true;
              auth := None;
              host := Some "contoso.servicebus.windows.net:443";
              port := Some "443";
              hostname := Some "contoso.servicebus.windows.net";
              hash := None;
              search := None;
              query := None;
              pathname := Some "/$hc/foo";
              path := Some "/$hc/foo";
              href := Some "wss://contoso.servicebus.windows.net:443/$hc/foo" |}.
Proof. vm_compute. reflexivity. Qed.

(** No path name: a query alone. *)
Example parse_query_only :
  NodeUrl.parse "?x=1"
  = Return {| protocol := None; slashes := false; auth := None;
              host := None; port := None; hostname := None; hash := None;
              search := Some "?x=1"; query := Some "x=1"; pathname := None;
              path := Some "?x=1"; href := Some "?x=1" |}.
Proof. vm_compute. reflexivity. Qed.

(** * Facts about strings *)


Lemma append_assoc (a b c : string) : (a ++ b) ++ c = a ++ (b ++ c).
Proof.
  induction a as [|x a IH]; simpl; [reflexivity | now rewrite IH].
Qed.

Lemma append_empty_r (a : string) : a ++ "" = a.
Proof.
  induction a as [|x a IH]; simpl; [reflexivity | now rewrite IH].
Qed.

Lemma contains_char_app (c : ascii) (a b : string) :
  Str.contains_char c (a ++ b)
  = Str.contains_char c a || Str.contains_char c b.
Proof.
  induction a as [|x a IH]; simpl; [reflexivity|].
  destruct (Ascii.eqb c x); [reflexivity | exact IH].
Qed.

Lemma strip_prefix_app (pat r : string) :
  Str.strip_prefix pat (pat ++ r) = Some r.
Proof.
  induction pat as [|x pat IH]; simpl; [reflexivity|].
  now rewrite Ascii.eqb_refl.
Qed.

(** A separator is found where it stands when its first character
    does not occur before it. *)
Lemma split_at_first (c : ascii) (pat a b : string) :
  Str.contains_char c a = false ->
  Str.split_at (String c pat) (a ++ String c pat ++ b) = Some (a, b).
Proof.
  intros Ha. induction a as [|x a IH].
  - cbn [append Str.split_at].
    change (String c (pat ++ b)) with (String c pat ++ b).
    now rewrite strip_prefix_app.
  - simpl in Ha. destruct (Ascii.eqb c x) eqn:E; [discriminate|].
    cbn [append Str.split_at Str.strip_prefix].
    rewrite E. cbn [append] in IH. now rewrite (IH Ha).
Qed.

Lemma replace_all_char_app (c : ascii) (by_ a b : string) :
  Str.replace_all_char c by_ (a ++ b)
  = Str.replace_all_char c by_ a ++ Str.replace_all_char c by_ b.
Proof.
  induction a as [|x a IH]; simpl; [reflexivity|].
  now rewrite IH, append_assoc.
Qed.

Lemma replace_all_char_absent (c : ascii) (by_ s : string) :
  Str.contains_char c s = false -> Str.replace_all_char c by_ s = s.
Proof.
  induction s as [|x s IH]; simpl; [reflexivity|].
  destruct (Ascii.eqb c x); [discriminate|].
  intros H. now rewrite (IH H).
Qed.

Lemma ends_with_refl (s : string) : Str.ends_with s s = true.
Proof.
  destruct s; cbn [Str.ends_with]; now rewrite String.eqb_refl.
Qed.

Lemma ends_with_app (a suffix : string) :
  Str.ends_with suffix (a ++ suffix) = true.
Proof.
  induction a as [|x a IH]; cbn [append].
  - apply ends_with_refl.
  - cbn [Str.ends_with].
    destruct (String.eqb suffix (String x (a ++ suffix))); [reflexivity|].
    exact IH.
Qed.


(** * [encodeURIComponent] and [decodeURIComponent] *)

Lemma encodeURIComponent_cons (c : ascii) (s : string) :
  encodeURIComponent (String c s) = encode_char c ++ encodeURIComponent s.
Proof. reflexivity. Qed.

Ltac each_ascii c :=
  destruct c as [[] [] [] [] [] [] [] []].

Lemma encode_char_no_amp (c : ascii) :
  Str.contains_char "&" (encode_char c) = false.
Proof. each_ascii c; reflexivity. Qed.

Lemma encode_char_no_hash (c : ascii) :
  Str.contains_char "#" (encode_char c) = false.
Proof. each_ascii c; reflexivity. Qed.

Lemma encodeURIComponent_no_amp (s : string) :
  Str.contains_char "&" (encodeURIComponent s) = false.
Proof.
  induction s as [|c s IH]; [reflexivity|].
  rewrite encodeURIComponent_cons, contains_char_app, encode_char_no_amp.
  exact IH.
Qed.

Lemma encodeURIComponent_no_hash (s : string) :
  Str.contains_char "#" (encodeURIComponent s) = false.
Proof.
  induction s as [|c s IH]; [reflexivity|].
  rewrite encodeURIComponent_cons, contains_char_app, encode_char_no_hash.
  exact IH.
Qed.

Lemma decode_encode_char (c : ascii) (r : string) :
  decodeURIComponent (encode_char c ++ r)
  = match decodeURIComponent r with
    | Some t => Some (String c t)
    | None => None
    end.
Proof.
  each_ascii c;
    match goal with
    | |- context [encode_char ?x] =>
        let e := eval vm_compute in (encode_char x) in
        change (encode_char x) with e
    end;
    cbn [append decodeURIComponent];
    destruct (decodeURIComponent r); reflexivity.
Qed.

Lemma decode_encodeURIComponent (s : string) :
  decodeURIComponent (encodeURIComponent s) = Some s.
Proof.
  induction s as [|c s IH]; [reflexivity|].
  now rewrite encodeURIComponent_cons, decode_encode_char, IH.
Qed.

(** * Base64 *)

Lemma base64_index_of_char_of (i : nat) :
  i < 64 -> Base64.index_of (Base64.char_of i) = Some i.
Proof.
  intros H.
  do 64 (destruct i as [|i]; [reflexivity|]).
  lia.
Qed.

Lemma base64_char_of_not_pad (i : nat) :
  i < 64 -> Base64.is_pad (Base64.char_of i) = false.
Proof.
  intros H.
  do 64 (destruct i as [|i]; [reflexivity|]).
  lia.
Qed.

(** Induction on strings three characters at a time. *)
Lemma by_triples (P : string -> Prop) :
  P "" ->
  (forall x, P (String x "")) ->
  (forall x y, P (String x (String y ""))) ->
  (forall x y z r, P r -> P (String x (String y (String z r)))) ->
  forall s, P s.
Proof.
  intros H0 H1 H2 H3.
  fix IH 1.
  intros [|x [|y [|z r]]];
    [exact H0 | apply H1 | apply H2 | apply H3; apply IH].
Qed.

Lemma first_byte (a b : nat) :
  a < 256 -> b < 256 -> a / 4 * 4 + (a mod 4 * 16 + b / 16) / 16 = a.
Proof.
  intros Ha Hb.
  pose proof (Nat.div_mod_eq a 4).
  pose proof (Nat.mod_upper_bound a 4).
  assert (b / 16 < 16) by (apply Nat.Div0.div_lt_upper_bound; lia).
  assert ((a mod 4 * 16 + b / 16) / 16 = a mod 4).
  { rewrite Nat.add_comm, Nat.div_add by lia. rewrite Nat.div_small; lia. }
  lia.
Qed.

Lemma second_byte (a b c : nat) :
  b < 256 -> c < 256 ->
  (a mod 4 * 16 + b / 16) mod 16 * 16 + (b mod 16 * 4 + c / 64) / 4 = b.
Proof.
  intros Hb Hc.
  pose proof (Nat.div_mod_eq b 16).
  pose proof (Nat.mod_upper_bound b 16).
  assert (b / 16 < 16) by (apply Nat.Div0.div_lt_upper_bound; lia).
  assert (c / 64 < 4) by (apply Nat.Div0.div_lt_upper_bound; lia).
  assert ((a mod 4 * 16 + b / 16) mod 16 = b / 16).
  { rewrite Nat.add_comm, Nat.Div0.mod_add. apply Nat.mod_small; lia. }
  assert ((b mod 16 * 4 + c / 64) / 4 = b mod 16).
  { rewrite Nat.add_comm, Nat.div_add by lia. rewrite Nat.div_small; lia. }
  lia.
Qed.

Lemma third_byte (b c : nat) :
  c < 256 -> (b mod 16 * 4 + c / 64) mod 4 * 64 + c mod 64 = c.
Proof.
  intros Hc.
  pose proof (Nat.div_mod_eq c 64).
  assert (c / 64 < 4) by (apply Nat.Div0.div_lt_upper_bound; lia).
  assert ((b mod 16 * 4 + c / 64) mod 4 = c / 64).
  { rewrite Nat.add_comm, Nat.Div0.mod_add. apply Nat.mod_small; lia. }
  lia.
Qed.

Lemma sextet_bounds (a b : nat) :
  a < 256 -> b < 256 ->
  a / 4 < 64 /\ a mod 4 * 16 + b / 16 < 64
  /\ a mod 16 * 4 + b / 64 < 64 /\ a mod 64 < 64.
Proof.
  intros Ha Hb.
  pose proof (Nat.mod_upper_bound a 4).
  pose proof (Nat.mod_upper_bound a 16).
  pose proof (Nat.mod_upper_bound a 64).
  assert (a / 4 < 64) by (apply Nat.Div0.div_lt_upper_bound; lia).
  assert (b / 16 < 16) by (apply Nat.Div0.div_lt_upper_bound; lia).
  assert (b / 64 < 4) by (apply Nat.Div0.div_lt_upper_bound; lia).
  lia.
Qed.

Lemma base64_decode_group (c1 c2 c3 c4 : ascii) (r : string) :
  Base64.is_pad c4 = false ->
  Base64.decode (String c1 (String c2 (String c3 (String c4 r))))
  = match Base64.index_of c1, Base64.index_of c2 with
    | Some s1, Some s2 =>
        match Base64.index_of c3, Base64.index_of c4, Base64.decode r with
        | Some s3, Some s4, Some t =>
            Some (String (ascii_of_nat (s1 * 4 + s2 / 16))
                    (String (ascii_of_nat (s2 mod 16 * 16 + s3 / 4))
                       (String (ascii_of_nat (s3 mod 4 * 64 + s4)) t)))
        | _, _, _ => None
        end
    | _, _ => None
    end.
Proof.
  intros H. cbn [Base64.decode]. rewrite H. reflexivity.
Qed.

Theorem base64_decode_encode (s : string) :
  Base64.decode (Base64.encode s) = Some s.
Proof.
  induction s as [| x | x y | x y z r IH] using by_triples.
  - reflexivity.
  - cbn [Base64.encode].
    pose proof (nat_ascii_bounded x) as Hx.
    destruct (sextet_bounds _ _ Hx Hx) as (B1 & _ & _ & _).
    assert (B2 : nat_of_ascii x mod 4 * 16 < 64)
      by (pose proof (Nat.mod_upper_bound (nat_of_ascii x) 4); lia).
    cbn [Base64.decode].
    rewrite (base64_index_of_char_of _ B1), (base64_index_of_char_of _ B2).
    change (Base64.is_pad "=") with true. cbv iota.
    pose proof (first_byte (nat_of_ascii x) 0 Hx) as E.
    rewrite Nat.add_0_r in E. rewrite E by lia.
    now rewrite ascii_nat_embedding.
  - cbn [Base64.encode].
    pose proof (nat_ascii_bounded x) as Hx.
    pose proof (nat_ascii_bounded y) as Hy.
    destruct (sextet_bounds _ _ Hx Hy) as (B1 & B2 & _ & _).
    assert (B3 : nat_of_ascii y mod 16 * 4 < 64)
      by (pose proof (Nat.mod_upper_bound (nat_of_ascii y) 16); lia).
    cbn [Base64.decode].
    rewrite (base64_index_of_char_of _ B1), (base64_index_of_char_of _ B2).
    change (Base64.is_pad "=") with true. cbv iota.
    rewrite (base64_char_of_not_pad _ B3), (base64_index_of_char_of _ B3).
    rewrite (first_byte _ _ Hx Hy).
    pose proof (second_byte (nat_of_ascii x) (nat_of_ascii y) 0 Hy) as E.
    rewrite Nat.add_0_r in E. rewrite E by lia.
    now rewrite !ascii_nat_embedding.
  - cbn [Base64.encode].
    pose proof (nat_ascii_bounded x) as Hx.
    pose proof (nat_ascii_bounded y) as Hy.
    pose proof (nat_ascii_bounded z) as Hz.
    destruct (sextet_bounds _ _ Hx Hy) as (B1 & B2 & _ & _).
    destruct (sextet_bounds _ _ Hy Hz) as (_ & _ & B3 & _).
    destruct (sextet_bounds _ _ Hz Hz) as (_ & _ & _ & B4).
    rewrite (base64_decode_group _ _ _ _ _ (base64_char_of_not_pad _ B4)).
    rewrite (base64_index_of_char_of _ B1), (base64_index_of_char_of _ B2),
      (base64_index_of_char_of _ B3), (base64_index_of_char_of _ B4), IH.
    rewrite (first_byte _ _ Hx Hy), (second_byte _ _ _ Hy Hz),
      (third_byte _ _ Hz).
    now rewrite !ascii_nat_embedding.
Qed.


(** * Decimal numbers *)

Lemma string_of_uint_no_amp (d : Decimal.uint) :
  Str.contains_char "&" (NilEmpty.string_of_uint d) = false.
Proof.
  induction d; simpl; auto.
Qed.

Lemma number_to_string_no_amp (x : number) :
  Str.contains_char "&" (number_to_string x) = false.
Proof.
  destruct x as [n|]; [|reflexivity].
  unfold number_to_string, NilZero.string_of_int, NilZero.string_of_uint.
  destruct (Z.to_int n) as [d | d].
  - destruct d; try reflexivity; apply string_of_uint_no_amp.
  - cbn [Str.contains_char]. change (Ascii.eqb "&" "-") with false. cbv iota.
    destruct d; try reflexivity; apply string_of_uint_no_amp.
Qed.

Create HintDb no_amp discriminated.
#[local] Hint Resolve encodeURIComponent_no_amp number_to_string_no_amp
  : no_amp.


(** * The token *)


Lemma parse_sas_token_fields (sr sig se skn : string) :
  Str.contains_char "&" sr = false ->
  Str.contains_char "&" sig = false ->
  Str.contains_char "&" se = false ->
  parse_sas_token ("SharedAccessSignature sr=" ++ sr ++ "&sig=" ++ sig
                     ++ "&se=" ++ se ++ "&skn=" ++ skn)
  = Some (sr, sig, se, skn).
Proof.
  intros Hsr Hsig Hse. unfold parse_sas_token.
  rewrite strip_prefix_app.
  rewrite (split_at_first "&" "sig=" sr _ Hsr).
  rewrite (split_at_first "&" "se=" sig _ Hsig).
  now rewrite (split_at_first "&" "skn=" se _ Hse).
Qed.

Section TokenFacts.

Variable url_parse : string -> outcome Url.

(** [createRelayToken] in one step: it fails where the normalisation
    fails, and otherwise returns the token without touching the world. *)
Lemma createRelayToken_run uri keyName key exp w :
  createRelayToken url_parse uri keyName key exp w
  = match signed_resource url_parse uri with
    | Return res =>
        (Return
           ("SharedAccessSignature sr=" ++ encodeURIComponent res
              ++ "&sig="
              ++ encodeURIComponent
                   (hmac_sha256_base64 key
                      (encodeURIComponent res ++ Str.LF
                         ++ number_to_string
                              (Moment.unix
                                 (Moment.add_seconds
                                    (clock_ms w) (effective_expiration exp)))))
              ++ "&se="
              ++ number_to_string
                   (Moment.unix
                      (Moment.add_seconds
                         (clock_ms w) (effective_expiration exp)))
              ++ "&skn=" ++ keyName), w)
    | Throw e => (Throw e, w)
    end.
Proof.
  unfold createRelayToken, mbind, lift, ret, Moment.now.
  now destruct (signed_resource url_parse uri) as [res | e].
Qed.

Lemma createRelayToken_pure uri keyName key exp w :
  snd (createRelayToken url_parse uri keyName key exp w) = w.
Proof.
  rewrite createRelayToken_run.
  now destruct (signed_resource url_parse uri).
Qed.

Lemma createRelayToken_returns uri keyName key exp w tok w' :
  createRelayToken url_parse uri keyName key exp w = (Return tok, w') ->
  exists res,
    signed_resource url_parse uri = Return res /\ w' = w /\
    tok = "SharedAccessSignature sr=" ++ encodeURIComponent res
            ++ "&sig="
            ++ encodeURIComponent
                 (hmac_sha256_base64 key
                    (encodeURIComponent res ++ Str.LF
                       ++ number_to_string
                            (Moment.unix
                               (Moment.add_seconds
                                  (clock_ms w) (effective_expiration exp)))))
            ++ "&se="
            ++ number_to_string
                 (Moment.unix
                    (Moment.add_seconds
                       (clock_ms w) (effective_expiration exp)))
            ++ "&skn=" ++ keyName.
Proof.
  rewrite createRelayToken_run.
  destruct (signed_resource url_parse uri) as [res | e]; [|discriminate].
  intros H. exists res. split; [reflexivity|].
  split; congruence.
Qed.

Lemma signed_resource_run uri :
  signed_resource url_parse uri
  = match url_parse uri with
    | Return u =>
        match pathname u with
        | Some p =>
            Return (url_format
                      (set_pathname
                         (set_search
                            (set_hash
                               (set_port (set_protocol u (Some "http")) None)
                               None)
                            None)
                         (Some (Str.replace_first "$hc/" "" p))))
        | None => Throw TypeError
        end
    | Throw e => Throw e
    end.
Proof.
  unfold signed_resource, bind.
  destruct (url_parse uri) as [u | e]; [|reflexivity].
  change (pathname (set_search
                      (set_hash (set_port (set_protocol u (Some "http")) None)
                                None) None))
    with (pathname u).
  now destruct (pathname u).
Qed.

(** Where [createRelayToken] returns: on the URIs that parse to an
    object with a path name; on the others the [replace] call on [null]
    raises a [TypeError]. *)
Lemma createRelayToken_defined uri keyName key exp w u p :
  url_parse uri = Return u -> pathname u = Some p ->
  exists tok, createRelayToken url_parse uri keyName key exp w = (Return tok, w).
Proof.
  intros Hu Hp. rewrite createRelayToken_run, signed_resource_run, Hu, Hp.
  eexists. reflexivity.
Qed.

Lemma createRelayToken_no_pathname uri keyName key exp w u :
  url_parse uri = Return u -> pathname u = None ->
  createRelayToken url_parse uri keyName key exp w = (Throw TypeError, w).
Proof.
  intros Hu Hp. now rewrite createRelayToken_run, signed_resource_run, Hu, Hp.
Qed.

End TokenFacts.

(** C2: the [sig] field of a token is the URI-encoded base64 rendering
    of HMAC-SHA256, keyed by [key], over the encoded signed resource, a
    line feed and the expiry; decoding [sig] gives the very bytes that
    the HMAC recomputed from the token's own [sr] and [se] gives. *)
Theorem token_signature_round_trip url_parse uri keyName key exp w tok w' :
  createRelayToken url_parse uri keyName key exp w = (Return tok, w') ->
  exists res sr sig se skn,
    signed_resource url_parse uri = Return res /\
    parse_sas_token tok = Some (sr, sig, se, skn) /\
    sr = encodeURIComponent res /\
    se = number_to_string
           (Moment.unix (Moment.add_seconds (clock_ms w)
                                            (effective_expiration exp))) /\
    decodeURIComponent sig
    = Some (Base64.encode (hmac_sha256 key (sr ++ Str.LF ++ se))) /\
    decoded_signature sig = Some (recomputed_signature key sr se).
Proof.
  intros H. apply createRelayToken_returns in H.
  destruct H as (res & Hres & _ & ->).
  eexists res, _, _, _, _. split; [exact Hres|]. split.
  - apply parse_sas_token_fields; auto with no_amp.
  - split; [reflexivity|]. split; [reflexivity|].
    unfold decoded_signature, recomputed_signature, hmac_sha256_base64.
    rewrite decode_encodeURIComponent.
    split; [reflexivity | apply base64_decode_encode].
Qed.

Example example_token_issued :
  createRelayToken NodeUrl.parse example_uri "RootManageSharedAccessKey"
                   "secret" (Given 60%Z) world_2021
  = (Return example_token, world_2021).
Proof. vm_compute. reflexivity. Qed.

Lemma token_signature_round_trip_witness :
  createRelayToken NodeUrl.parse example_uri "RootManageSharedAccessKey"
                   "secret" (Given 60%Z) world_2021
  = (Return example_token, world_2021) /\
  exists sr sig se skn,
    parse_sas_token example_token = Some (sr, sig, se, skn) /\
    decoded_signature sig = Some (recomputed_signature "secret" sr se).
Proof.
  assert (H : createRelayToken NodeUrl.parse example_uri
                "RootManageSharedAccessKey" "secret" (Given 60%Z) world_2021
              = (Return example_token, world_2021))
    by (vm_compute; reflexivity).
  split; [exact H|].
  destruct (token_signature_round_trip _ _ _ _ _ _ _ _ H)
    as (res & sr & sig & se & skn & _ & Hp & _ & _ & _ & Hd).
  exists sr, sig, se, skn. split; [exact Hp | exact Hd].
Defined.




(** C4: a returned token is [SharedAccessSignature sr=..&sig=..&se=..&skn=..]
    with the fields in this order, [sr] and [sig] URI-encoded, [se] and
    [skn] as they are. *)
Theorem token_format url_parse uri keyName key exp w tok w' :
  createRelayToken url_parse uri keyName key exp w = (Return tok, w') ->
  exists res signature se,
    signed_resource url_parse uri = Return res /\
    se = number_to_string
           (Moment.unix (Moment.add_seconds (clock_ms w)
                                            (effective_expiration exp))) /\
    signature = hmac_sha256_base64 key (encodeURIComponent res ++ Str.LF ++ se) /\
    tok = "SharedAccessSignature sr=" ++ encodeURIComponent res
            ++ "&sig=" ++ encodeURIComponent signature
            ++ "&se=" ++ se ++ "&skn=" ++ keyName /\
    parse_sas_token tok
    = Some (encodeURIComponent res, encodeURIComponent signature, se, keyName).
Proof.
  intros H. apply createRelayToken_returns in H.
  destruct H as (res & Hres & _ & ->).
  eexists res, _, _. repeat split; try reflexivity; [exact Hres|].
  apply parse_sas_token_fields; auto with no_amp.
Qed.

Lemma token_format_witness :
  createRelayToken NodeUrl.parse example_uri "RootManageSharedAccessKey"
                   "secret" (Given 60%Z) world_2021
  = (Return example_token, world_2021) /\
  parse_sas_token example_token
  = Some ("http%3A%2F%2Fcontoso.servicebus.windows.net%2Ffoo",
          "c692ppXoa01tljkeMIvvMnMMidgx1oRFi7WNO0jvfTU%3D",
          "1609459260", "RootManageSharedAccessKey").
Proof.
  assert (H : createRelayToken NodeUrl.parse example_uri
                "RootManageSharedAccessKey" "secret" (Given 60%Z) world_2021
              = (Return example_token, world_2021))
    by (vm_compute; reflexivity).
  split; [exact H|].
  destruct (token_format _ _ _ _ _ _ _ _ H)
    as (res & sig & se & Hres & -> & -> & _ & Hp).
  assert (R : res = "http://contoso.servicebus.windows.net/foo").
  { assert (E : signed_resource NodeUrl.parse example_uri
                = Return "http://contoso.servicebus.windows.net/foo")
      by (vm_compute; reflexivity).
    rewrite E in Hres. now injection Hres. }
  subst res. vm_compute in Hp |- *. exact Hp.
Defined.

(** * The relay URIs *)

(** The example of the specification. *)
Example send_uri_example :
  createRelaySendUri "ns.servicebus.windows.net" "foo" (Given "TOK")
                     (Given "ID1")
  = "wss://ns.servicebus.windows.net:443/$hc/foo?sb-hc-action=connect&sb-hc-token=TOK&sb-hc-id=ID1".
Proof. reflexivity. Qed.

Example listen_uri_example :
  createRelayListenUri "ns.servicebus.windows.net" "foo" (Given "TOK")
                       (Given "ID1")
  = "wss://ns.servicebus.windows.net:443/$hc/foo?sb-hc-action=listen&sb-hc-token=TOK&sb-hc-id=ID1".
Proof. reflexivity. Qed.

(** C5, as the claim states it, fails on a path with a question mark:
    the action parameter then follows an ampersand. *)
Lemma send_uri_question_mark_counterexample :
  createRelaySendUri "ns.servicebus.windows.net" "foo?x=1" Null Null
  <> createRelayBaseUri "ns.servicebus.windows.net" "foo?x=1"
       ++ "?sb-hc-action=connect".
Proof. vm_compute. discriminate. Qed.

(** C5 (amended): the send URI is the base URI, then [sb-hc-action=connect]
    after a [?], or after a [&] when the base URI has a [?] already,
    then the token and the id parameters when they are given; the listen
    URI is the same with [listen] for [connect]. *)
Theorem send_and_listen_uri ns p token id :
  createRelayBaseUri ns p = "wss://" ++ ns ++ ":443/$hc/" ++ p /\
  createRelaySendUri ns p token id
  = createRelayBaseUri ns p
      ++ (if Str.contains_char "?" (createRelayBaseUri ns p) then "&" else "?")
      ++ "sb-hc-action=connect"
      ++ match token with
         | Given t => "&sb-hc-token=" ++ encodeURIComponent t
         | Undefined | Null => ""
         end
      ++ match id with
         | Given i => "&sb-hc-id=" ++ encodeURIComponent i
         | Undefined | Null => ""
         end /\
  createRelayListenUri ns p token id
  = createRelayBaseUri ns p
      ++ (if Str.contains_char "?" (createRelayBaseUri ns p) then "&" else "?")
      ++ "sb-hc-action=listen"
      ++ match token with
         | Given t => "&sb-hc-token=" ++ encodeURIComponent t
         | Undefined | Null => ""
         end
      ++ match id with
         | Given i => "&sb-hc-id=" ++ encodeURIComponent i
         | Undefined | Null => ""
         end.
Proof.
  split; [reflexivity|].
  unfold createRelaySendUri, createRelayListenUri.
  set (base := createRelayBaseUri ns p).
  destruct (Str.contains_char "?" base); cbn [negb];
    destruct token, id;
    rewrite ?append_assoc, ?append_empty_r; cbn [append];
    split; reflexivity.
Qed.

(** C6: without a token and an id, the send URI and the listen URI are
    the base URI, one separator and the action, and end there. *)
Theorem uri_without_token_and_id ns p (token id : optional string) :
  not_nullish token = false -> not_nullish id = false ->
  (exists sep,
      (sep = "?" \/ sep = "&") /\
      createRelaySendUri ns p token id
      = createRelayBaseUri ns p ++ sep ++ "sb-hc-action=connect" /\
      createRelayListenUri ns p token id
      = createRelayBaseUri ns p ++ sep ++ "sb-hc-action=listen") /\
  Str.ends_with "sb-hc-action=connect" (createRelaySendUri ns p token id)
  = true /\
  Str.ends_with "sb-hc-action=listen" (createRelayListenUri ns p token id)
  = true.
Proof.
  intros Ht Hi.
  assert (E : createRelaySendUri ns p token id
              = (createRelayBaseUri ns p
                   ++ (if negb (Str.contains_char "?" (createRelayBaseUri ns p))
                       then "?" else "&")) ++ "sb-hc-action=connect"
              /\ createRelayListenUri ns p token id
                 = (createRelayBaseUri ns p
                      ++ (if negb (Str.contains_char "?" (createRelayBaseUri ns p))
                          then "?" else "&")) ++ "sb-hc-action=listen").
  { unfold createRelaySendUri, createRelayListenUri.
    destruct token; try discriminate; destruct id; try discriminate;
      now rewrite !append_assoc. }
  destruct E as [Es El]. split.
  - exists (if negb (Str.contains_char "?" (createRelayBaseUri ns p))
            then "?" else "&").
    rewrite Es, El, !append_assoc.
    destruct (Str.contains_char "?" (createRelayBaseUri ns p)); auto.
  - rewrite Es, El. split; apply ends_with_app.
Qed.

Lemma uri_without_token_and_id_witness :
  not_nullish (@Null string) = false /\
  not_nullish (@Undefined string) = false /\
  createRelaySendUri "ns.servicebus.windows.net" "foo" Null Undefined
  = "wss://ns.servicebus.windows.net:443/$hc/foo?sb-hc-action=connect" /\
  Str.ends_with "sb-hc-action=listen"
    (createRelayListenUri "ns.servicebus.windows.net" "foo" Null Undefined)
  = true.
Proof.
  split; [reflexivity|]. split; [reflexivity|].
  destruct (uri_without_token_and_id "ns.servicebus.windows.net" "foo"
              Null Undefined eq_refl eq_refl) as (_ & _ & Hl).
  split; [reflexivity | exact Hl].
Defined.

(** * Appending a token *)

Lemma replace_all_char_nonempty (c : ascii) (by_ s : string) :
  by_ <> "" -> s <> "" -> is_empty (Str.replace_all_char c by_ s) = false.
Proof.
  intros Hb Hs. destruct s as [|d s]; [contradiction|].
  cbn [Str.replace_all_char].
  destruct (Ascii.eqb c d); [|reflexivity].
  destruct by_; [contradiction | reflexivity].
Qed.

Lemma is_empty_app_l (a b : string) :
  is_empty a = false -> is_empty (a ++ b) = false.
Proof. now destruct a. Qed.

Lemma starts_with_char_app_l (c : ascii) (a b : string) :
  is_empty a = false ->
  Str.starts_with_char c (a ++ b) = Str.starts_with_char c a.
Proof. now destruct a. Qed.

(** Text added to a non-empty [search] comes out right after the
    formatted query string. *)
Lemma format_search_app (u : Url) (q suffix : string) :
  search u = Some q -> q <> "" ->
  Str.contains_char "#" suffix = false ->
  format_search (set_search u (Some (q ++ suffix)))
  = format_search u ++ suffix.
Proof.
  intros Hq Hne Hs. unfold format_search.
  change (search (set_search u (Some (q ++ suffix)))) with (Some (q ++ suffix)).
  rewrite Hq. cbn [or_empty].
  rewrite replace_all_char_app, (replace_all_char_absent _ _ suffix Hs).
  assert (E : is_empty (Str.replace_all_char "#" "%23" q) = false)
    by (apply replace_all_char_nonempty; [discriminate | exact Hne]).
  rewrite (is_empty_app_l _ suffix E), E, (starts_with_char_app_l _ _ _ E).
  cbn [negb andb].
  destruct (Str.starts_with_char "?" (Str.replace_all_char "#" "%23" q));
    cbn [negb]; [reflexivity|].
  reflexivity.
Qed.

Lemma url_format_without_hash (u : Url) :
  url_format u = url_format (set_hash u None) ++ format_hash u.
Proof.
  unfold url_format.
  change (format_hash (set_hash u None)) with "".
  now rewrite append_empty_r, !append_assoc.
Qed.

Lemma token_parameter_no_hash (tok : string) :
  Str.contains_char "#" ("&sb-hc-token=" ++ encodeURIComponent tok) = false.
Proof.
  rewrite contains_char_app, encodeURIComponent_no_hash. reflexivity.
Qed.

(** The claim of C7 as it is written, for every URI with a query
    string, fails on a URI without a path name: [url.parse] finds the
    query of [?x=1], but [createRelayToken], and with it
    [appendRelayToken], raises a [TypeError] instead of returning. *)
Lemma appendRelayToken_query_only_counterexample :
  (exists u, NodeUrl.parse "?x=1" = Return u /\ search u = Some "?x=1") /\
  appendRelayToken NodeUrl.parse "?x=1" "k" "secret" Null world_2021
  = (Throw TypeError, world_2021).
Proof.
  split; [eexists; split; [vm_compute; reflexivity | reflexivity]|].
  vm_compute. reflexivity.
Qed.

(** C7, amended: on a URI with a query string and a path name a token
    is issued, and [appendRelayToken] returns the URI as [url.format]
    writes it back, with [&sb-hc-token=] and the encoded token right
    after the query string, before the fragment. *)
Theorem appendRelayToken_appends url_parse uri keyName key exp w u q p :
  url_parse uri = Return u ->
  search u = Some q -> q <> "" ->
  pathname u = Some p ->
  exists tok,
    createRelayToken url_parse uri keyName key exp w = (Return tok, w) /\
    url_format u = url_format (set_hash u None) ++ format_hash u /\
    Str.ends_with (format_search u) (url_format (set_hash u None)) = true /\
    appendRelayToken url_parse uri keyName key exp w
    = (Return (url_format (set_hash u None)
                 ++ "&sb-hc-token=" ++ encodeURIComponent tok
                 ++ format_hash u), w).
Proof.
  intros Hu Hq Hne Hp.
  destruct (createRelayToken_defined url_parse uri keyName key exp w u p Hu Hp)
    as (tok & Htok).
  exists tok. split; [exact Htok|].
  split; [apply url_format_without_hash|]. split.
  - unfold url_format.
    change (format_hash (set_hash u None)) with "".
    rewrite append_empty_r.
    change (format_search (set_hash u None)) with (format_search u).
    rewrite <- !append_assoc. apply ends_with_app.
  - unfold appendRelayToken, mbind.
    rewrite Htok.
    unfold lift. rewrite Hu. unfold ret. f_equal. f_equal.
    rewrite Hq. cbn [to_string_field].
    unfold url_format at 1.
    rewrite (format_search_app u q _ Hq Hne (token_parameter_no_hash tok)).
    unfold url_format.
    change (format_hash (set_hash u None)) with "".
    rewrite append_empty_r, !append_assoc. reflexivity.
Qed.

Lemma appendRelayToken_appends_witness :
  NodeUrl.parse example_uri = Return example_url /\
  search example_url = Some "?x=1" /\
  pathname example_url = Some "/$hc/foo" /\
  createRelayToken NodeUrl.parse example_uri "RootManageSharedAccessKey"
                   "secret" (Given 60%Z) world_2021
  = (Return example_token, world_2021) /\
  appendRelayToken NodeUrl.parse example_uri "RootManageSharedAccessKey"
                   "secret" (Given 60%Z) world_2021
  = (Return ("https://contoso.servicebus.windows.net/$hc/foo?x=1"
               ++ "&sb-hc-token=" ++ encodeURIComponent example_token
               ++ "#frag"), world_2021).
Proof.
  assert (Hu : NodeUrl.parse example_uri = Return example_url)
    by (vm_compute; reflexivity).
  assert (Hne : "?x=1" <> "") by discriminate.
  assert (H : createRelayToken NodeUrl.parse example_uri
                "RootManageSharedAccessKey" "secret" (Given 60%Z) world_2021
              = (Return example_token, world_2021))
    by (vm_compute; reflexivity).
  split; [exact Hu|]. split; [reflexivity|]. split; [reflexivity|].
  split; [exact H|].
  destruct (appendRelayToken_appends
              NodeUrl.parse example_uri "RootManageSharedAccessKey" "secret"
              (Given 60%Z) world_2021 example_url "?x=1" "/$hc/foo"
              Hu eq_refl Hne eq_refl)
    as (tok & Ht & _ & _ & Ha).
  rewrite H in Ht. injection Ht as <-. exact Ha.
Defined.


(** * Connections *)

Lemma update_last {A} (f : A -> A) (l : list A) (x : A) :
  WS.update (List.length l) f (l ++ [x])%list = (l ++ [f x])%list.
Proof.
  induction l as [|y l IH]; [reflexivity|].
  cbn [List.length app WS.update]. now rewrite IH.
Qed.

Lemma nth_error_last {A} (l : list A) (x : A) :
  nth_error (l ++ [x])%list (List.length l) = Some x.
Proof.
  induction l as [|y l IH]; [reflexivity | exact IH].
Qed.

(** C10: an agent object without a token: the assignment to [opt.agent]
    on [null] raises a [TypeError], and no client has been created. *)
Theorem agent_without_token_throws addr token agent fn w :
  value_not_nullish token = false ->
  value_not_nullish agent = true -> typeof agent = TObject ->
  relayedConnect addr token agent fn w = (Throw TypeError, w).
Proof.
  intros Ht Ha Ho. unfold relayedConnect, is_object.
  now rewrite Ht, Ha, Ho.
Qed.

Lemma agent_without_token_throws_witness :
  value_not_nullish VNull = false /\
  value_not_nullish (VObj 7) = true /\ typeof (VObj 7) = TObject /\
  relayedConnect "wss://ns:443/$hc/foo" VNull (VObj 7) (VFun 1) world_2021
  = (Throw TypeError, world_2021).
Proof.
  split; [reflexivity|]. split; [reflexivity|]. split; [reflexivity|].
  exact (agent_without_token_throws "wss://ns:443/$hc/foo" VNull (VObj 7)
           (VFun 1) world_2021 eq_refl eq_refl eq_refl).
Defined.

(** With a callable [fn] and an [agent] that is neither a function nor
    an object, one listener is registered and [fn] runs once on [open]. *)
Lemma open_listener_once addr token agent f w :
  is_function agent = false ->
  value_not_nullish agent && is_object agent = false ->
  let n := List.length (clients w) in
  let opt := if value_not_nullish token
             then Some (mkOptions [("ServiceBusAuthorization", token)] None)
             else None in
  let opened cs :=
    mkWorld (clock_ms w)
            (clients w
               ++ [mkClient addr VNull opt [("open", Invoke (VFun f) n)]])
            cs in
  relayedConnect addr token agent (VFun f) w = (Return n, opened (calls w)) /\
  WS.emit n "open" (opened (calls w))
  = (Return tt, opened (calls w ++ [(f, n)])%list).
Proof.
  intros Hf Ho n opt opened. split.
  - unfold relayedConnect. fold opt. rewrite Ho, Hf.
    unfold mbind, WS.new, WS.on, ret.
    cbn [is_function typeof clients clock_ms calls].
    rewrite update_last. reflexivity.
  - unfold WS.emit, opened. cbn [clients].
    unfold n. rewrite nth_error_last. cbn [listeners WS.run_all].
    rewrite String.eqb_refl. reflexivity.
Qed.

(** C9 (the code at the failing inputs): both open listeners call [fn].
    With a callable [agent] and a callable [fn], [fn] is registered
    twice and runs twice on [open]; with a callable [agent] and no [fn],
    the listener calls [undefined], so [open] raises a [TypeError] and
    [agent] is never called. *)
Theorem open_listeners_call_fn addr token a f w :
  let n := List.length (clients w) in
  let opt := if value_not_nullish token
             then Some (mkOptions [("ServiceBusAuthorization", token)] None)
             else None in
  let opened ls cs :=
    mkWorld (clock_ms w) (clients w ++ [mkClient addr VNull opt ls]) cs in
  let twice := [("open", Invoke (VFun f) n); ("open", Invoke (VFun f) n)] in
  let broken := [("open", Invoke VUndefined n)] in
  relayedConnect addr token (VFun a) (VFun f) w
  = (Return n, opened twice (calls w)) /\
  WS.emit n "open" (opened twice (calls w))
  = (Return tt, opened twice (calls w ++ [(f, n); (f, n)])%list) /\
  relayedConnect addr token (VFun a) VUndefined w
  = (Return n, opened broken (calls w)) /\
  WS.emit n "open" (opened broken (calls w))
  = (Throw TypeError, opened broken (calls w)).
Proof.
  intros n opt opened twice broken.
  assert (Hopt : forall A (k : option ws_options -> M A),
             mbind (if value_not_nullish (VFun a) && is_object (VFun a)
                    then match opt with
                         | Some o => ret (Some (mkOptions (headers o)
                                                          (Some (VFun a))))
                         | None => throw TypeError
                         end
                    else ret opt) k w = k opt w) by reflexivity.
  split; [|split; [|split]].
  - unfold relayedConnect. fold opt. rewrite Hopt.
    unfold mbind, WS.new, WS.on, ret.
    cbn [is_function typeof clients clock_ms calls].
    rewrite !update_last. reflexivity.
  - unfold WS.emit, opened. cbn [clients].
    unfold n. rewrite nth_error_last. cbn [listeners].
    unfold twice. cbn [WS.run_all]. rewrite String.eqb_refl.
    unfold mbind, WS.run, ret. cbn [clock_ms clients calls].
    now rewrite <- app_assoc.
  - unfold relayedConnect. fold opt. rewrite Hopt.
    unfold mbind, WS.new, WS.on, ret.
    cbn [is_function typeof clients clock_ms calls].
    rewrite update_last. reflexivity.
  - unfold WS.emit, opened. cbn [clients].
    unfold n. rewrite nth_error_last. cbn [listeners].
    unfold broken. cbn [WS.run_all]. rewrite String.eqb_refl.
    reflexivity.
Qed.

(** * The signed resource *)

Lemma is_empty_app_r (a b : string) :
  is_empty b = false -> is_empty (a ++ b) = false.
Proof. now destruct a. Qed.

Lemma is_empty_false (s : string) : s <> "" -> is_empty s = false.
Proof. destruct s; [contradiction | reflexivity]. Qed.

(** [url.format] takes the authority from [host] when [host] is set:
    clearing [port] does not change it. *)
Lemma format_host_of_host (u : Url) (h : string) :
  host u = Some h -> h <> "" -> format_host u = format_auth u ++ h.
Proof.
  intros Hh Hne. unfold format_host. rewrite Hh. cbn [or_empty].
  now rewrite (is_empty_false h Hne).
Qed.

(** The signed resource of a URI with an authority is [http://], the
    [host] field as [url.parse] filled it, port included, and the
    path. *)
Lemma signed_resource_keeps_host url_parse uri u h p :
  url_parse uri = Return u -> host u = Some h -> h <> "" ->
  pathname u = Some p ->
  exists p',
    signed_resource url_parse uri
    = Return ("http://" ++ format_auth u ++ h ++ p').
Proof.
  intros Hu Hh Hne Hp. rewrite signed_resource_run, Hu, Hp.
  set (u' := set_pathname _ _).
  assert (Hf : format_host u' = format_auth u ++ h)
    by (apply (format_host_of_host u' h); [exact Hh | exact Hne]).
  assert (He : is_empty (format_host u') = false)
    by (rewrite Hf; apply is_empty_app_r, is_empty_false, Hne).
  unfold url_format, format_host_path.
  change (format_protocol u') with "http:".
  change (slashedProtocol "http:") with true.
  rewrite orb_true_r, He, orb_true_r, Hf. cbn [fst snd].
  eexists. cbn [append]. rewrite !append_assoc. reflexivity.
Qed.

(** C1 (the code at the claim's example and at the failing input): the
    example of the specification comes out as stated, but a URI with an
    explicit port, such as the one [createRelayBaseUri] builds, keeps
    the port in the signed resource and so in the [sr] field. *)
Theorem signed_resource_keeps_explicit_port keyName key exp w :
  signed_resource NodeUrl.parse
    "https://contoso.servicebus.windows.net/$hc/foo?x=1#frag"
  = Return "http://contoso.servicebus.windows.net/foo" /\
  signed_resource NodeUrl.parse
    (createRelayBaseUri "contoso.servicebus.windows.net" "foo")
  = Return "http://contoso.servicebus.windows.net:443/foo" /\
  exists sr sig se,
    createRelayToken NodeUrl.parse
      (createRelayBaseUri "contoso.servicebus.windows.net" "foo")
      keyName key exp w
    = (Return ("SharedAccessSignature sr=" ++ sr ++ "&sig=" ++ sig
                 ++ "&se=" ++ se ++ "&skn=" ++ keyName), w) /\
    decodeURIComponent sr
    = Some "http://contoso.servicebus.windows.net:443/foo".
Proof.
  assert (E : signed_resource NodeUrl.parse
                (createRelayBaseUri "contoso.servicebus.windows.net" "foo")
              = Return "http://contoso.servicebus.windows.net:443/foo")
    by (vm_compute; reflexivity).
  split; [vm_compute; reflexivity|]. split; [exact E|].
  rewrite createRelayToken_run, E.
  eexists _, _, _. split; [reflexivity|].
  apply decode_encodeURIComponent.
Qed.

(** * More on the token *)

(** X1: [createRelayToken] passes on an error of [url.parse], raises a
    [TypeError] when the parsed URI has no path name, and returns a token
    otherwise; in each case the world is left as it was. *)
Theorem createRelayToken_outcome url_parse uri keyName key exp w :
  match url_parse uri with
  | Throw e =>
      createRelayToken url_parse uri keyName key exp w = (Throw e, w)
  | Return u =>
      match pathname u with
      | None =>
          createRelayToken url_parse uri keyName key exp w
          = (Throw TypeError, w)
      | Some _ =>
          exists tok,
            createRelayToken url_parse uri keyName key exp w = (Return tok, w)
      end
  end.
Proof.
  rewrite createRelayToken_run, signed_resource_run.
  destruct (url_parse uri) as [u | e]; [|reflexivity].
  destruct (pathname u); [eexists|]; reflexivity.
Qed.

(** X2: the [sr] field of a returned token URI-decodes to the signed
    resource, and the [skn] field is the key name as it was given,
    whatever characters it holds. *)
Theorem token_resource_round_trip url_parse uri keyName key exp w tok w' :
  createRelayToken url_parse uri keyName key exp w = (Return tok, w') ->
  exists sr sig se skn,
    parse_sas_token tok = Some (sr, sig, se, skn) /\
    match decodeURIComponent sr with
    | Some res => signed_resource url_parse uri = Return res
    | None => False
    end /\
    skn = keyName.
Proof.
  intros H. apply createRelayToken_returns in H.
  destruct H as (res & Hres & _ & ->).
  eexists _, _, _, _. split.
  - apply parse_sas_token_fields; auto using encodeURIComponent_no_amp,
      number_to_string_no_amp.
  - rewrite decode_encodeURIComponent. split; [exact Hres | reflexivity].
Qed.

Lemma token_resource_round_trip_witness :
  createRelayToken NodeUrl.parse example_uri "RootManageSharedAccessKey"
                   "secret" (Given 60%Z) world_2021
  = (Return example_token, world_2021) /\
  exists sr sig se skn,
    parse_sas_token example_token = Some (sr, sig, se, skn) /\
    match decodeURIComponent sr with
    | Some res => signed_resource NodeUrl.parse example_uri = Return res
    | None => False
    end /\
    skn = "RootManageSharedAccessKey".
Proof.
  assert (H : createRelayToken NodeUrl.parse example_uri
                "RootManageSharedAccessKey" "secret" (Given 60%Z) world_2021
              = (Return example_token, world_2021))
    by (vm_compute; reflexivity).
  split; [exact H|].
  exact (token_resource_round_trip _ _ _ _ _ _ _ _ H).
Defined.

(** X3: the key name is not signed: a token is a part that does not
    depend on the key name, followed by [&skn=] and the key name. *)
Theorem key_name_is_not_signed url_parse uri keyName key exp w tok w' :
  createRelayToken url_parse uri keyName key exp w = (Return tok, w') ->
  exists signed,
    tok = signed ++ "&skn=" ++ keyName /\
    forall other,
      createRelayToken url_parse uri other key exp w
      = (Return (signed ++ "&skn=" ++ other), w).
Proof.
  intros H. apply createRelayToken_returns in H.
  destruct H as (res & Hres & _ & ->).
  eexists. split.
  - rewrite <- !append_assoc. reflexivity.
  - intros other. rewrite createRelayToken_run, Hres.
    now rewrite !append_assoc.
Qed.

Lemma key_name_is_not_signed_witness :
  createRelayToken NodeUrl.parse example_uri "RootManageSharedAccessKey"
                   "secret" (Given 60%Z) world_2021
  = (Return example_token, world_2021) /\
  exists signed,
    example_token = signed ++ "&skn=" ++ "RootManageSharedAccessKey" /\
    forall other,
      createRelayToken NodeUrl.parse example_uri other "secret" (Given 60%Z)
                       world_2021
      = (Return (signed ++ "&skn=" ++ other), world_2021).
Proof.
  assert (H : createRelayToken NodeUrl.parse example_uri
                "RootManageSharedAccessKey" "secret" (Given 60%Z) world_2021
              = (Return example_token, world_2021))
    by (vm_compute; reflexivity).
  split; [exact H|].
  exact (key_name_is_not_signed _ _ _ _ _ _ _ _ H).
Defined.

(** [url.format] after the normalisation reads five fields only. *)
Lemma normalised_format_fields (u1 u2 : Url) (p : option string) :
  slashes u1 = slashes u2 -> auth u1 = auth u2 -> host u1 = host u2 ->
  hostname u1 = hostname u2 ->
  url_format
    (set_pathname
       (set_search
          (set_hash (set_port (set_protocol u1 (Some "http")) None) None)
          None) p)
  = url_format
      (set_pathname
         (set_search
            (set_hash (set_port (set_protocol u2 (Some "http")) None) None)
            None) p).
Proof.
  intros Hs Ha Hh Hn.
  unfold url_format, format_host_path, format_host, format_auth,
    format_protocol, format_search, format_hash.
  cbn [protocol slashes auth host port hostname hash search pathname
       set_pathname set_search set_hash set_port set_protocol].
  now rewrite Hs, Ha, Hh, Hn.
Qed.

(** X4: two URIs whose parsed objects agree on [slashes], [auth],
    [host], [hostname] and [pathname] get the same token: the protocol,
    the port field, the query and the fragment do not matter. *)
Theorem token_ignores_scheme_query_fragment
        url_parse uri1 uri2 u1 u2 keyName key exp w :
  url_parse uri1 = Return u1 -> url_parse uri2 = Return u2 ->
  slashes u1 = slashes u2 -> auth u1 = auth u2 -> host u1 = host u2 ->
  hostname u1 = hostname u2 -> pathname u1 = pathname u2 ->
  createRelayToken url_parse uri1 keyName key exp w
  = createRelayToken url_parse uri2 keyName key exp w.
Proof.
  intros H1 H2 Hs Ha Hh Hn Hp.
  rewrite !createRelayToken_run, !signed_resource_run, H1, H2, Hp.
  destruct (pathname u2) as [p|]; [|reflexivity].
  now rewrite (normalised_format_fields u1 u2 _ Hs Ha Hh Hn).
Qed.

Lemma token_ignores_scheme_query_fragment_witness :
  NodeUrl.parse example_uri = Return example_url /\
  NodeUrl.parse plain_uri = Return plain_url /\
  createRelayToken NodeUrl.parse example_uri "k" "secret" Null world_2021
  = createRelayToken NodeUrl.parse plain_uri "k" "secret" Null world_2021.
Proof.
  assert (H1 : NodeUrl.parse example_uri = Return example_url)
    by (vm_compute; reflexivity).
  assert (H2 : NodeUrl.parse plain_uri = Return plain_url)
    by (vm_compute; reflexivity).
  split; [exact H1|]. split; [exact H2|].
  exact (token_ignores_scheme_query_fragment
           NodeUrl.parse example_uri plain_uri example_url plain_url
           "k" "secret" Null world_2021 H1 H2
           eq_refl eq_refl eq_refl eq_refl eq_refl).
Defined.

(** X5: the normalisation removes the first [$hc/] of the path name,
    wherever it stands, and leaves later ones in place. *)
Theorem only_first_hc_is_removed url_parse uri u before after :
  url_parse uri = Return u ->
  pathname u = Some (before ++ "$hc/" ++ after) ->
  Str.contains_char "$" before = false ->
  signed_resource url_parse uri
  = Return (url_format
              (set_pathname
                 (set_search
                    (set_hash (set_port (set_protocol u (Some "http")) None)
                              None) None)
                 (Some (before ++ after)))).
Proof.
  intros Hu Hp Hb. rewrite signed_resource_run, Hu, Hp.
  unfold Str.replace_first.
  now rewrite (split_at_first "$" "hc/" before after Hb).
Qed.

Lemma only_first_hc_is_removed_witness :
  NodeUrl.parse "https://h/a/$hc/b/$hc/c" = Return nested_url /\
  pathname nested_url = Some ("/a/" ++ "$hc/" ++ "b/$hc/c") /\
  Str.contains_char "$" "/a/" = false /\
  signed_resource NodeUrl.parse "https://h/a/$hc/b/$hc/c"
  = Return "http://h/a/b/$hc/c".
Proof.
  assert (Hu : NodeUrl.parse "https://h/a/$hc/b/$hc/c" = Return nested_url)
    by (vm_compute; reflexivity).
  split; [exact Hu|]. split; [reflexivity|]. split; [reflexivity|].
  exact (only_first_hc_is_removed NodeUrl.parse "https://h/a/$hc/b/$hc/c"
           nested_url "/a/" "b/$hc/c" Hu eq_refl eq_refl).
Defined.

(** * Expiry *)




(** * More on appending a token *)

(** X7: on a URI without a query, [appendRelayToken] writes the text
    [null] for the missing query: the result is the URI without its
    fragment, then [?null&sb-hc-token=] and the encoded token, then the
    fragment. *)
Theorem appendRelayToken_without_query
        url_parse uri keyName key exp w u tok w' :
  url_parse uri = Return u ->
  search u = None ->
  createRelayToken url_parse uri keyName key exp w = (Return tok, w') ->
  appendRelayToken url_parse uri keyName key exp w
  = (Return (url_format (set_hash u None)
               ++ "?null&sb-hc-token=" ++ encodeURIComponent tok
               ++ format_hash u), w).
Proof.
  intros Hu Hs Htok.
  pose proof (createRelayToken_pure url_parse uri keyName key exp w) as Hw.
  unfold appendRelayToken, mbind.
  rewrite Htok in Hw |- *. cbn [snd] in Hw. subst w'.
  unfold lift. rewrite Hu. unfold ret. f_equal. f_equal.
  rewrite Hs. cbn [to_string_field].
  unfold url_format, format_search.
  cbn [search set_search set_hash or_empty].
  rewrite Hs. cbn [or_empty].
  change ("null&sb-hc-token=" ++ encodeURIComponent tok)
    with ("null" ++ "&sb-hc-token=" ++ encodeURIComponent tok).
  rewrite replace_all_char_app,
    (replace_all_char_absent _ _ _ (token_parameter_no_hash tok)).
  change (format_hash (set_hash u None)) with "".
  cbn. rewrite !append_assoc. reflexivity.
Qed.

Lemma appendRelayToken_without_query_witness :
  NodeUrl.parse no_query_uri = Return no_query_url /\
  search no_query_url = None /\
  createRelayToken NodeUrl.parse no_query_uri "k" "secret" Null world_2021
  = (Return no_query_token, world_2021) /\
  appendRelayToken NodeUrl.parse no_query_uri "k" "secret" Null world_2021
  = (Return ("http://h/p" ++ "?null&sb-hc-token="
               ++ encodeURIComponent no_query_token ++ "#f"), world_2021).
Proof.
  assert (Hu : NodeUrl.parse no_query_uri = Return no_query_url)
    by (vm_compute; reflexivity).
  assert (H : createRelayToken NodeUrl.parse no_query_uri "k" "secret" Null
                world_2021
              = (Return no_query_token, world_2021))
    by (vm_compute; reflexivity).
  split; [exact Hu|]. split; [reflexivity|]. split; [exact H|].
  exact (appendRelayToken_without_query NodeUrl.parse no_query_uri
           "k" "secret" Null world_2021 no_query_url no_query_token
           world_2021 Hu eq_refl H).
Defined.

(** X8: [appendRelayToken] fails where [createRelayToken] fails, with
    the same error, and returns a URI wherever a token is issued; it
    leaves the world as it was. *)
Theorem appendRelayToken_outcome url_parse uri keyName key exp w :
  snd (appendRelayToken url_parse uri keyName key exp w) = w /\
  match fst (createRelayToken url_parse uri keyName key exp w) with
  | Throw e =>
      fst (appendRelayToken url_parse uri keyName key exp w) = Throw e
  | Return _ =>
      exists s,
        fst (appendRelayToken url_parse uri keyName key exp w) = Return s
  end.
Proof.
  unfold appendRelayToken, mbind.
  rewrite createRelayToken_run, signed_resource_run.
  unfold lift, ret.
  destruct (url_parse uri) as [u | e]; [|split; reflexivity].
  destruct (pathname u); cbn [fst snd]; split; try reflexivity.
  eexists. reflexivity.
Qed.

(** * More on connections *)

Lemma relayedConnect_run addr token agent fn w :
  relayedConnect addr token agent fn w
  = if negb (value_not_nullish token)
       && (value_not_nullish agent && is_object agent)
    then (Throw TypeError, w)
    else
      let n := List.length (clients w) in
      (Return n,
       mkWorld (clock_ms w)
               (clients w
                  ++ [mkClient addr VNull (connect_options token agent)
                        (List.repeat ("open", Invoke fn n)
                           (count_if (is_function fn)
                            + count_if (is_function agent)))])
               (calls w)).
Proof.
  unfold relayedConnect, connect_options, mbind, WS.new, WS.on, ret, throw.
  destruct (value_not_nullish token);
    destruct (value_not_nullish agent && is_object agent);
    cbn [negb andb headers clients clock_ms calls]; try reflexivity;
    destruct (is_function fn); destruct (is_function agent);
    cbn [clients clock_ms calls count_if Nat.add List.repeat];
    rewrite ?update_last; try reflexivity.
  all: destruct w as [c cs ks]; cbn; now rewrite ?app_nil_r.
Qed.

(** X9: whatever the constructor of [ws] does, [relayedConnect] raises
    the [TypeError] of line 53 without reaching the constructor when the
    token is [null] or [undefined] and the agent is a non-null object;
    otherwise it hands the address, [null] and the options to the
    constructor, raises what the constructor raises, and returns the
    client that the constructor returns.  [relayedConnect] itself is the
    instance at the constructor [WS.new]. *)
Theorem relayedConnect_outcome construct addr token agent fn w :
  relayedConnect addr token agent fn
  = relayedConnect_with WS.new addr token agent fn /\
  if negb (value_not_nullish token)
     && (value_not_nullish agent && is_object agent)
  then relayedConnect_with construct addr token agent fn w
       = (Throw TypeError, w)
  else
    match construct addr VNull (connect_options token agent) w with
    | (Throw e, w1) =>
        relayedConnect_with construct addr token agent fn w = (Throw e, w1)
    | (Return client, w1) =>
        exists w2,
          relayedConnect_with construct addr token agent fn w
          = (Return client, w2) /\
          clock_ms w2 = clock_ms w1 /\ calls w2 = calls w1
    end.
Proof.
  split; [reflexivity|].
  unfold relayedConnect_with, connect_options, mbind, ret, throw.
  destruct (value_not_nullish token);
    destruct (value_not_nullish agent && is_object agent);
    cbn [negb andb headers]; try reflexivity;
    destruct (construct addr VNull _ w) as [[client | e] w1];
    try reflexivity;
    destruct (is_function fn), (is_function agent);
    eexists; (split; [reflexivity | split; reflexivity]).
Qed.

(** X10: a call of [relayedConnect] that returns adds one client, with
    the given address and no protocols, at the returned handle; the
    clients that were there, the clock and the record of calls are
    unchanged, so no callback has run yet. *)
Theorem relayedConnect_frame addr token agent fn w h w' :
  relayedConnect addr token agent fn w = (Return h, w') ->
  h = List.length (clients w) /\
  clock_ms w' = clock_ms w /\
  calls w' = calls w /\
  (exists c,
      clients w' = (clients w ++ [c])%list /\
      address c = addr /\ protocols c = VNull) /\
  forall i, (i < List.length (clients w))%nat ->
            nth_error (clients w') i = nth_error (clients w) i.
Proof.
  rewrite relayedConnect_run.
  destruct (negb (value_not_nullish token)
            && (value_not_nullish agent && is_object agent));
    [discriminate|].
  cbv zeta. intros [= <- <-]. cbn [clock_ms clients calls].
  repeat split.
  - eexists. repeat split.
  - intros i Hi. now apply nth_error_app1.
Qed.

Lemma relayedConnect_frame_witness :
  relayedConnect "wss://y" (VStr "t") VNull (VFun 2) busy_world_2021
  = (Return 1%nat,
     mkWorld 1609459200000
             [mkClient "wss://x" VNull None [];
              mkClient "wss://y" VNull
                       (Some (mkOptions [("ServiceBusAuthorization", VStr "t")]
                                        None))
                       [("open", Invoke (VFun 2) 1%nat)]]
             [(1, 0)%nat]) /\
  nth_error
    (clients
       (snd (relayedConnect "wss://y" (VStr "t") VNull (VFun 2)
                            busy_world_2021))) 0
  = Some (mkClient "wss://x" VNull None []).
Proof.
  assert (H : relayedConnect "wss://y" (VStr "t") VNull (VFun 2)
                busy_world_2021
              = (Return 1%nat,
                 mkWorld 1609459200000
                   [mkClient "wss://x" VNull None [];
                    mkClient "wss://y" VNull
                      (Some (mkOptions
                               [("ServiceBusAuthorization", VStr "t")] None))
                      [("open", Invoke (VFun 2) 1%nat)]]
                   [(1, 0)%nat]))
    by (vm_compute; reflexivity).
  split; [exact H|].
  destruct (relayedConnect_frame _ _ _ _ _ _ _ H) as (_ & _ & _ & _ & Hi).
  rewrite H. cbn [snd]. exact (Hi 0%nat (Nat.lt_0_succ 0)).
Defined.

(** X11: the new client's options are [null] without a token; with a
    token they hold the one header [ServiceBusAuthorization] with the
    token as its value, and the agent when it is a non-null object. *)
Theorem relayedConnect_options addr token agent fn w h w' :
  relayedConnect addr token agent fn w = (Return h, w') ->
  exists c,
    nth_error (clients w') h = Some c /\
    options c
    = if value_not_nullish token
      then Some (mkOptions [("ServiceBusAuthorization", token)]
                           (match typeof agent with
                            | TObject =>
                                if value_not_nullish agent
                                then Some agent else None
                            | _ => None
                            end))
      else None.
Proof.
  rewrite relayedConnect_run.
  destruct (negb (value_not_nullish token)
            && (value_not_nullish agent && is_object agent));
    [discriminate|].
  cbv zeta. intros [= <- <-]. cbn [clients].
  eexists. split; [apply nth_error_last|].
  cbn [options]. unfold connect_options, is_object.
  destruct (value_not_nullish token); [|reflexivity].
  destruct (typeof agent), (value_not_nullish agent); reflexivity.
Qed.

Lemma relayedConnect_options_witness :
  relayedConnect "wss://y" (VStr "t") (VObj 3) VUndefined world_2021
  = (Return 0%nat,
     mkWorld 1609459200000
             [mkClient "wss://y" VNull
                       (Some (mkOptions [("ServiceBusAuthorization", VStr "t")]
                                        (Some (VObj 3))))
                       []]
             []) /\
  exists c,
    nth_error
      [mkClient "wss://y" VNull
                (Some (mkOptions [("ServiceBusAuthorization", VStr "t")]
                                 (Some (VObj 3))))
                []] 0
    = Some c /\
    options c
    = Some (mkOptions [("ServiceBusAuthorization", VStr "t")] (Some (VObj 3))).
Proof.
  assert (H : relayedConnect "wss://y" (VStr "t") (VObj 3) VUndefined
                world_2021
              = (Return 0%nat,
                 mkWorld 1609459200000
                   [mkClient "wss://y" VNull
                      (Some (mkOptions
                               [("ServiceBusAuthorization", VStr "t")]
                               (Some (VObj 3))))
                      []]
                   []))
    by (vm_compute; reflexivity).
  split; [exact H|].
  exact (relayedConnect_options _ _ _ _ _ _ _ H).
Defined.

Lemma run_all_open_calls (f h : nat) (k : nat) (w : world) :
  WS.run_all "open" (List.repeat ("open", Invoke (VFun f) h) k) w
  = (Return tt,
     mkWorld (clock_ms w) (clients w) (calls w ++ List.repeat (f, h) k)).
Proof.
  revert w. induction k as [|k IH]; intros w.
  - cbn. rewrite app_nil_r. now destruct w.
  - cbn [List.repeat WS.run_all]. rewrite String.eqb_refl.
    unfold mbind, WS.run. rewrite IH. cbn [clock_ms clients calls].
    now rewrite <- app_assoc.
Qed.

(** X12: with a callable [fn], every listener registered for [open]
    calls [fn] with the new handle, one listener for [fn] and one more
    when [agent] is a function too; on [open], [fn] runs that many
    times and nothing else is called. *)
Theorem open_runs_fn_per_function_argument addr token agent f w h w' :
  relayedConnect addr token agent (VFun f) w = (Return h, w') ->
  let k := (1 + (if is_function agent then 1 else 0))%nat in
  (exists c,
      nth_error (clients w') h = Some c /\
      listeners c = List.repeat ("open", Invoke (VFun f) h) k) /\
  WS.emit h "open" w'
  = (Return tt,
     mkWorld (clock_ms w') (clients w') (calls w' ++ List.repeat (f, h) k)).
Proof.
  rewrite relayedConnect_run.
  destruct (negb (value_not_nullish token)
            && (value_not_nullish agent && is_object agent));
    [discriminate|].
  cbv zeta. intros [= <- <-].
  change (is_function (VFun f)) with true.
  change (count_if true + count_if (is_function agent))%nat
    with (1 + (if is_function agent then 1 else 0))%nat.
  split.
  - eexists. split; [apply nth_error_last | reflexivity].
  - unfold WS.emit. cbn [clients]. rewrite nth_error_last.
    cbv beta iota. cbn [listeners].
    etransitivity;
      [ exact (run_all_open_calls f _ (S (count_if (is_function agent))) _)
      | reflexivity ].
Qed.

Lemma open_runs_fn_per_function_argument_witness :
  relayedConnect "wss://y" VNull (VFun 1) (VFun 2) world_2021
  = (Return 0%nat,
     mkWorld 1609459200000
             [mkClient "wss://y" VNull None
                       [("open", Invoke (VFun 2) 0%nat);
                        ("open", Invoke (VFun 2) 0%nat)]]
             []) /\
  WS.emit 0 "open"
    (mkWorld 1609459200000
             [mkClient "wss://y" VNull None
                       [("open", Invoke (VFun 2) 0%nat);
                        ("open", Invoke (VFun 2) 0%nat)]]
             [])
  = (Return tt,
     mkWorld 1609459200000
             [mkClient "wss://y" VNull None
                       [("open", Invoke (VFun 2) 0%nat);
                        ("open", Invoke (VFun 2) 0%nat)]]
             [(2, 0); (2, 0)]%nat).
Proof.
  assert (H : relayedConnect "wss://y" VNull (VFun 1) (VFun 2) world_2021
              = (Return 0%nat,
                 mkWorld 1609459200000
                   [mkClient "wss://y" VNull None
                      [("open", Invoke (VFun 2) 0%nat);
                       ("open", Invoke (VFun 2) 0%nat)]]
                   []))
    by (vm_compute; reflexivity).
  split; [exact H|].
  exact (proj2 (open_runs_fn_per_function_argument _ _ _ _ _ _ _ H)).
Defined.

(** * More on the relay URIs *)

Lemma append_cancel_l (a x y : string) : a ++ x = a ++ y -> x = y.
Proof.
  induction a as [|c a IH]; cbn [append]; [auto|].
  intros [= H]. auto.
Qed.

Lemma action_separator_cases (base : string) :
  (if negb (Str.contains_char "?" base) then "?" else "&")
  = (if Str.contains_char "?" base then "&" else "?").
Proof. now destruct (Str.contains_char "?" base). Qed.

(** The two builders, as one concatenation each. *)
Lemma send_uri_parts ns p token id :
  createRelaySendUri ns p token id
  = createRelayBaseUri ns p
      ++ (if Str.contains_char "?" (createRelayBaseUri ns p) then "&" else "?")
      ++ "sb-hc-action=" ++ "connect"
      ++ match token with
         | Given t => "&sb-hc-token=" ++ encodeURIComponent t
         | Undefined | Null => ""
         end
      ++ match id with
         | Given i => "&sb-hc-id=" ++ encodeURIComponent i
         | Undefined | Null => ""
         end.
Proof.
  unfold createRelaySendUri. rewrite action_separator_cases.
  destruct token, id;
    rewrite ?append_assoc, ?append_empty_r; cbn [append];
    rewrite ?append_empty_r; reflexivity.
Qed.

Lemma listen_uri_parts ns p token id :
  createRelayListenUri ns p token id
  = createRelayBaseUri ns p
      ++ (if Str.contains_char "?" (createRelayBaseUri ns p) then "&" else "?")
      ++ "sb-hc-action=" ++ "listen"
      ++ match token with
         | Given t => "&sb-hc-token=" ++ encodeURIComponent t
         | Undefined | Null => ""
         end
      ++ match id with
         | Given i => "&sb-hc-id=" ++ encodeURIComponent i
         | Undefined | Null => ""
         end.
Proof.
  unfold createRelayListenUri. rewrite action_separator_cases.
  destruct token, id;
    rewrite ?append_assoc, ?append_empty_r; cbn [append];
    rewrite ?append_empty_r; reflexivity.
Qed.

(** X13: for one namespace and path, a send URI is never a listen URI,
    whatever tokens and ids are given. *)
Theorem send_uri_is_never_listen_uri ns p token id token' id' :
  createRelaySendUri ns p token id <> createRelayListenUri ns p token' id'.
Proof.
  rewrite send_uri_parts, listen_uri_parts. intros H.
  apply append_cancel_l in H. apply append_cancel_l in H.
  apply (append_cancel_l "sb-hc-action=") in H.
  cbn [append] in H. discriminate H.
Qed.

Lemma split_on_nonempty (c : ascii) (s : string) : split_on c s <> [].
Proof.
  destruct s as [|d s]; cbn [split_on]; [discriminate|].
  destruct (Ascii.eqb c d); [discriminate|].
  destruct (split_on c s); discriminate.
Qed.

Lemma split_on_absent (c : ascii) (a : string) :
  Str.contains_char c a = false -> split_on c a = [a].
Proof.
  induction a as [|d a IH]; cbn [Str.contains_char split_on]; [reflexivity|].
  destruct (Ascii.eqb c d); [discriminate|].
  intros H. now rewrite (IH H).
Qed.

Lemma split_on_app (c : ascii) (a b : string) :
  Str.contains_char c a = false ->
  split_on c (a ++ String c b) = a :: split_on c b.
Proof.
  induction a as [|d a IH]; cbn [Str.contains_char split_on append].
  - intros _. now rewrite Ascii.eqb_refl.
  - destruct (Ascii.eqb c d); [discriminate|].
    intros H. now rewrite (IH H).
Qed.

Lemma base_uri_no_question_mark ns p :
  Str.contains_char "?" ns = false -> Str.contains_char "?" p = false ->
  Str.contains_char "?" (createRelayBaseUri ns p) = false.
Proof.
  intros Hn Hp. unfold createRelayBaseUri.
  now rewrite !contains_char_app, Hn, Hp.
Qed.

Lemma parameter_no_amp (name value : string) :
  Str.contains_char "&" name = false ->
  Str.contains_char "&" (name ++ encodeURIComponent value) = false.
Proof.
  intros H. now rewrite contains_char_app, H, encodeURIComponent_no_amp.
Qed.

Lemma split_on_concat (c : ascii) (xs : list string) :
  xs <> [] ->
  Forall (fun x => Str.contains_char c x = false) xs ->
  split_on c (String.concat (String c "") xs) = xs.
Proof.
  intros Hne H. induction H as [|x xs Hx Hxs IH]; [contradiction|].
  destruct xs as [|y ys].
  - cbn [String.concat]. now apply split_on_absent.
  - change (String.concat (String c "") (x :: y :: ys))
      with (x ++ String c (String.concat (String c "") (y :: ys))).
    rewrite (split_on_app c x _ Hx), IH; [reflexivity | discriminate].
Qed.

Lemma optional_parameters_concat (action : string) token id :
  "sb-hc-action=" ++ action
    ++ match token with
       | Given t => "&sb-hc-token=" ++ encodeURIComponent t
       | Undefined | Null => ""
       end
    ++ match id with
       | Given i => "&sb-hc-id=" ++ encodeURIComponent i
       | Undefined | Null => ""
       end
  = String.concat "&" (("sb-hc-action=" ++ action)
                         :: optional_parameters token id).
Proof.
  unfold optional_parameters.
  destruct token, id; cbn [app String.concat];
    rewrite ?append_assoc, ?append_empty_r; reflexivity.
Qed.

Lemma optional_parameters_no_amp (action : string) token id :
  Str.contains_char "&" action = false ->
  Forall (fun x => Str.contains_char "&" x = false)
         (("sb-hc-action=" ++ action) :: optional_parameters token id).
Proof.
  intros Ha. constructor; [now rewrite contains_char_app, Ha|].
  unfold optional_parameters.
  destruct token, id; cbn [app]; repeat constructor;
    now apply parameter_no_amp.
Qed.

Lemma lookup_optional_parameters (action : string) token id :
  decodeURIComponent action = Some action ->
  lookup_parameter "sb-hc-action"
    (("sb-hc-action=" ++ action) :: optional_parameters token id)
  = Some action /\
  lookup_parameter "sb-hc-token"
    (("sb-hc-action=" ++ action) :: optional_parameters token id)
  = given token /\
  lookup_parameter "sb-hc-id"
    (("sb-hc-action=" ++ action) :: optional_parameters token id)
  = given id.
Proof.
  intros Ha. unfold optional_parameters.
  destruct token, id;
    cbn [app lookup_parameter append Str.strip_prefix Ascii.eqb Bool.eqb given];
    rewrite ?decode_encodeURIComponent; auto.
Qed.

Lemma relay_query_parameter (name base action : string) token id :
  Str.contains_char "?" base = false ->
  Str.contains_char "&" action = false ->
  query_parameter name
    (base ++ "?" ++ "sb-hc-action=" ++ action
       ++ match token with
          | Given t => "&sb-hc-token=" ++ encodeURIComponent t
          | Undefined | Null => ""
          end
       ++ match id with
          | Given i => "&sb-hc-id=" ++ encodeURIComponent i
          | Undefined | Null => ""
          end)
  = lookup_parameter name
      (("sb-hc-action=" ++ action) :: optional_parameters token id).
Proof.
  intros Hb Ha. unfold query_parameter.
  rewrite (split_at_first "?" "" base _ Hb).
  rewrite optional_parameters_concat, split_on_concat;
    [reflexivity | discriminate | now apply optional_parameters_no_amp].
Qed.

(** X14: when the namespace and the path have no question mark, the
    query of a send or listen URI reads back: [sb-hc-action] is
    [connect] or [listen], and [sb-hc-token] and [sb-hc-id] decode to
    the token and the id that were given, and are absent when those
    were. *)
Theorem relay_uri_parameters_round_trip ns p token id :
  Str.contains_char "?" ns = false -> Str.contains_char "?" p = false ->
  (query_parameter "sb-hc-action" (createRelaySendUri ns p token id)
   = Some "connect" /\
   query_parameter "sb-hc-token" (createRelaySendUri ns p token id)
   = given token /\
   query_parameter "sb-hc-id" (createRelaySendUri ns p token id)
   = given id) /\
  (query_parameter "sb-hc-action" (createRelayListenUri ns p token id)
   = Some "listen" /\
   query_parameter "sb-hc-token" (createRelayListenUri ns p token id)
   = given token /\
   query_parameter "sb-hc-id" (createRelayListenUri ns p token id)
   = given id).
Proof.
  intros Hn Hp.
  pose proof (base_uri_no_question_mark ns p Hn Hp) as Hb.
  rewrite send_uri_parts, listen_uri_parts, Hb.
  rewrite !(relay_query_parameter _ _ "connect" _ _ Hb eq_refl).
  rewrite !(relay_query_parameter _ _ "listen" _ _ Hb eq_refl).
  split; apply lookup_optional_parameters; reflexivity.
Qed.

Lemma relay_uri_parameters_round_trip_witness :
  Str.contains_char "?" "ns.servicebus.windows.net" = false /\
  Str.contains_char "?" "foo" = false /\
  query_parameter "sb-hc-token"
    (createRelaySendUri "ns.servicebus.windows.net" "foo"
                        (Given "a token&more=1") (Given "ID 1"))
  = Some "a token&more=1" /\
  query_parameter "sb-hc-id"
    (createRelayListenUri "ns.servicebus.windows.net" "foo"
                          (Given "a token&more=1") (Given "ID 1"))
  = Some "ID 1".
Proof.
  split; [reflexivity|]. split; [reflexivity|].
  destruct (relay_uri_parameters_round_trip
              "ns.servicebus.windows.net" "foo"
              (Given "a token&more=1") (Given "ID 1") eq_refl eq_refl)
    as ((_ & Ht & _) & (_ & _ & Hi)).
  split; [exact Ht | exact Hi].
Defined.

(** * The relayed server *)






(** * Parsing the URIs that the builders make *)

Lemma str_forallb_impl (p q : ascii -> bool) (s : string) :
  (forall c, p c = true -> q c = true) ->
  Str.forallb p s = true -> Str.forallb q s = true.
Proof.
  intros Hpq. induction s as [|c s IH]; cbn [Str.forallb]; [auto|].
  intros H. apply andb_true_iff in H as [Hc Hs].
  now rewrite (Hpq c Hc), (IH Hs).
Qed.

Lemma str_forallb_app (p : ascii -> bool) (a b : string) :
  Str.forallb p (a ++ b) = Str.forallb p a && Str.forallb p b.
Proof.
  induction a as [|c a IH]; cbn [Str.forallb append]; [reflexivity|].
  now rewrite IH, andb_assoc.
Qed.

Lemma str_forallb_not_contains (c : ascii) (p : ascii -> bool) (s : string) :
  p c = false -> Str.forallb p s = true -> Str.contains_char c s = false.
Proof.
  intros Hc. induction s as [|d s IH]; cbn [Str.forallb Str.contains_char];
    [reflexivity|].
  intros H. apply andb_true_iff in H as [Hd Hs].
  destruct (Ascii.eqb_spec c d) as [->|_]; [congruence | auto].
Qed.

Lemma break_at_stop (pr : ascii -> bool) (a : string) (d : ascii) (b : string) :
  Str.forallb (fun c => negb (pr c)) a = true -> pr d = true ->
  NodeUrl.break_at pr (a ++ String d b) = (a, String d b).
Proof.
  intros Ha Hd. induction a as [|c a IH]; cbn [append NodeUrl.break_at].
  - now rewrite Hd.
  - cbn [Str.forallb] in Ha. apply andb_true_iff in Ha as [Hc Ha].
    apply negb_true_iff in Hc. now rewrite Hc, (IH Ha).
Qed.

Lemma break_at_all (pr : ascii -> bool) (a : string) :
  Str.forallb (fun c => negb (pr c)) a = true ->
  NodeUrl.break_at pr a = (a, "").
Proof.
  induction a as [|c a IH]; cbn [Str.forallb NodeUrl.break_at];
    [reflexivity|].
  intros Ha. apply andb_true_iff in Ha as [Hc Ha].
  apply negb_true_iff in Hc. now rewrite Hc, (IH Ha).
Qed.

Lemma split_last_absent (c : ascii) (a : string) :
  Str.contains_char c a = false -> NodeUrl.split_last c a = None.
Proof.
  induction a as [|d a IH]; cbn [Str.contains_char NodeUrl.split_last];
    [reflexivity|].
  destruct (Ascii.eqb c d); [discriminate|].
  intros H. now rewrite (IH H).
Qed.

Lemma split_last_app (c : ascii) (a b : string) :
  Str.contains_char c b = false ->
  NodeUrl.split_last c (a ++ String c b) = Some (a, b).
Proof.
  intros Hb. induction a as [|d a IH]; cbn [append NodeUrl.split_last].
  - now rewrite (split_last_absent c b Hb), Ascii.eqb_refl.
  - now rewrite IH.
Qed.

Lemma auto_escape_plain (s : string) :
  Str.forallb (fun c => negb (NodeUrl.auto_escaped c)) s = true ->
  NodeUrl.auto_escape s = s.
Proof.
  induction s as [|c s IH]; cbn [Str.forallb NodeUrl.auto_escape];
    [reflexivity|].
  intros H. apply andb_true_iff in H as [Hc Hs].
  apply negb_true_iff in Hc. now rewrite Hc, (IH Hs).
Qed.

Lemma auto_escape_app (a b : string) :
  NodeUrl.auto_escape (a ++ b)
  = NodeUrl.auto_escape a ++ NodeUrl.auto_escape b.
Proof.
  induction a as [|c a IH]; cbn [append NodeUrl.auto_escape]; [reflexivity|].
  now rewrite IH, append_assoc.
Qed.

Lemma percent_byte_no_hash (c : ascii) :
  Str.forallb (fun d => negb (Ascii.eqb "#" d)) (percent_byte c) = true.
Proof. destruct c as [[] [] [] [] [] [] [] []]; reflexivity. Qed.

Lemma auto_escape_no_hash (s : string) :
  Str.contains_char "#" s = false ->
  Str.forallb (fun c => negb (Ascii.eqb "#" c)) (NodeUrl.auto_escape s) = true.
Proof.
  induction s as [|c s IH]; cbn [Str.contains_char NodeUrl.auto_escape];
    [reflexivity|].
  destruct (Ascii.eqb "#" c) eqn:E; [discriminate|].
  intros H. rewrite str_forallb_app, (IH H), andb_true_r.
  destruct (NodeUrl.auto_escaped c) eqn:A.
  - apply percent_byte_no_hash.
  - cbn [Str.forallb]. now rewrite E.
Qed.

Lemma substring_skip_two (x : string) (c d : ascii) :
  String.substring 2 (String.length (String c (String d x)))
                   (String c (String d x)) = x.
Proof.
  cbn [String.substring String.length].
  assert (G : forall s n, (String.length s <= n)%nat ->
                          String.substring 0 n s = s).
  { induction s as [|e s IH]; intros [|n] H; cbn in *; try reflexivity;
      try lia. now rewrite IH by lia. }
  apply G. lia.
Qed.

Lemma to_lower_app (a b : string) :
  Str.to_lower (a ++ b) = Str.to_lower a ++ Str.to_lower b.
Proof.
  induction a as [|c a IH]; cbn [append Str.to_lower]; [reflexivity|].
  now rewrite IH.
Qed.

Lemma plain_label_chars (ls : list string) :
  List.forallb plain_label ls = true ->
  List.forallb (Str.forallb host_label_char) ls = true.
Proof.
  induction ls as [|l ls IH]; cbn [List.forallb]; [reflexivity|].
  intros H. apply andb_true_iff in H as [Hl Hls].
  rewrite (IH Hls), andb_true_r.
  unfold plain_label in Hl. rewrite !andb_true_iff in Hl. tauto.
Qed.

(** The characters of a string whose pieces between the occurrences of
    [c] are made of [q] characters. *)
Lemma split_on_chars (q : ascii -> bool) (c : ascii) (s : string) :
  List.forallb (Str.forallb q) (split_on c s) = true ->
  Str.forallb (fun d => q d || Ascii.eqb c d) s = true.
Proof.
  induction s as [|d s IH]; cbn [split_on Str.forallb]; [reflexivity|].
  destruct (Ascii.eqb c d).
  - cbn [List.forallb Str.forallb andb]. intros H.
    now rewrite orb_true_r, (IH H).
  - destruct (split_on c s) as [|x r].
    + cbn [List.forallb Str.forallb]. rewrite !andb_true_r. intros ->.
      now rewrite IH.
    + cbn [List.forallb Str.forallb]. intros H.
      apply andb_true_iff in H as [Hx Hr].
      apply andb_true_iff in Hx as [Hd Hx].
      rewrite Hd. cbn [orb andb]. apply IH.
      cbn [List.forallb]. now rewrite Hx, Hr.
Qed.

Lemma host_char_facts (c : ascii) :
  host_label_char c || Ascii.eqb "." c = true ->
  NodeUrl.host_ending c = false /\ Ascii.eqb "@" c = false
  /\ NodeUrl.non_host c = false.
Proof.
  each_ascii c; intros H; try discriminate H; repeat split.
Qed.

Lemma plain_host_facts (ns : string) :
  plain_host ns = true ->
  is_empty ns = false /\
  Str.forallb (fun c => negb (NodeUrl.host_ending c)) ns = true /\
  Str.contains_char "@" ns = false /\
  Str.forallb (fun c => negb (NodeUrl.non_host c)) ns = true.
Proof.
  intros H. split; [destruct ns; [discriminate H | reflexivity]|].
  unfold plain_host in H. apply andb_true_iff in H as [_ Hf].
  apply plain_label_chars, split_on_chars in Hf.
  split; [|split].
  - revert Hf. apply str_forallb_impl. intros c Hc.
    destruct (host_char_facts c Hc) as (-> & _ & _). reflexivity.
  - apply (str_forallb_not_contains
             _ (fun d => host_label_char d || Ascii.eqb "." d));
      [reflexivity | exact Hf].
  - revert Hf. apply str_forallb_impl. intros c Hc.
    destruct (host_char_facts c Hc) as (_ & _ & ->). reflexivity.
Qed.

Lemma plain_path_facts (p : string) :
  plain_path p = true ->
  Str.forallb (fun c => negb (NodeUrl.auto_escaped c)) p = true /\
  Str.forallb (fun c => negb (Ascii.eqb "#" c)) p = true /\
  Str.forallb (fun c => negb (Ascii.eqb "?" c)) p = true /\
  Str.contains_char "#" p = false /\ Str.contains_char "?" p = false.
Proof.
  unfold plain_path. intros Hf.
  assert (Hq : forall c, plain_path_char c = true ->
                         Ascii.eqb "?" c = false /\ Ascii.eqb "#" c = false
                         /\ NodeUrl.auto_escaped c = false).
  { intros c. unfold plain_path_char.
    rewrite !negb_orb, !andb_true_iff, !negb_true_iff.
    rewrite (Ascii.eqb_sym c "?"), (Ascii.eqb_sym c "#"). tauto. }
  repeat split.
  - revert Hf. apply str_forallb_impl. intros c Hc.
    destruct (Hq c Hc) as (_ & _ & ->). reflexivity.
  - revert Hf. apply str_forallb_impl. intros c Hc.
    destruct (Hq c Hc) as (_ & -> & _). reflexivity.
  - revert Hf. apply str_forallb_impl. intros c Hc.
    destruct (Hq c Hc) as (-> & _ & _). reflexivity.
  - apply (str_forallb_not_contains _ plain_path_char); [reflexivity | exact Hf].
  - apply (str_forallb_not_contains _ plain_path_char); [reflexivity | exact Hf].
Qed.

Lemma prefix_slashes (x : string) : String.prefix "//" ("//" ++ x) = true.
Proof. now destruct x. Qed.

Lemma parse_relay_uri (ns p : string) (qs : option string) :
  plain_host ns = true -> plain_path p = true ->
  match qs with Some q => Str.contains_char "#" q = false | None => True end ->
  exists hr,
    NodeUrl.parse ("wss://" ++ ns ++ ":443/$hc/" ++ p ++ relay_tail qs)
    = Return {| protocol := Some "wss:";
                slashes := true;
                auth := None;
                host := Some (Str.to_lower ns ++ ":443");
                port := Some "443";
                hostname := Some (Str.to_lower ns);
                hash := None;
                search := option_map (fun q => "?" ++ NodeUrl.auto_escape q) qs;
                query := option_map NodeUrl.auto_escape qs;
                pathname := Some ("/$hc/" ++ p);
                path := Some ("/$hc/" ++ p
                                ++ relay_tail (option_map NodeUrl.auto_escape qs));
                href := hr |}.
Proof.
  intros Hns Hp Hq.
  destruct (plain_host_facts ns Hns) as (Hne & Hend & Hat & Hnon).
  destruct (plain_path_facts p Hp) as (Hesc & Hhash & Hqm & _ & _).
  unfold NodeUrl.parse.
  set (after := "/$hc/" ++ p ++ relay_tail qs).
  assert (Hm : NodeUrl.match_protocol ("wss://" ++ ns ++ ":443/$hc/" ++ p ++ relay_tail qs)
               = Some ("wss:", "//" ++ (ns ++ ":443") ++ after)).
  { unfold after. rewrite !append_assoc. reflexivity. }
  rewrite Hm. clear Hm.
  change (Str.to_lower "wss:") with "wss:".
  cbv beta iota zeta.
  cbn [or_empty orb].
  rewrite (prefix_slashes ((ns ++ ":443") ++ after)).
  change (hostlessProtocol "wss:") with false.
  cbn [andb negb orb].
  change ("//" ++ (ns ++ ":443") ++ after)
    with (String "/" (String "/" ((ns ++ ":443") ++ after))).
  rewrite substring_skip_two.
  assert (Hauth : Str.forallb (fun c => negb (NodeUrl.host_ending c))
                              (ns ++ ":443") = true)
    by (now rewrite str_forallb_app, Hend).
  change after with (String "/" ("$hc/" ++ p ++ relay_tail qs)).
  rewrite (break_at_stop NodeUrl.host_ending _ "/" _ Hauth eq_refl).
  assert (Hat' : Str.contains_char "@" (ns ++ ":443") = false)
    by (now rewrite contains_char_app, Hat).
  rewrite (split_last_absent _ _ Hat').
  assert (Hnon' : Str.forallb (fun c => negb (NodeUrl.non_host c))
                              (ns ++ ":443") = true)
    by (now rewrite str_forallb_app, Hnon).
  rewrite (break_at_all _ _ Hnon').
  unfold NodeUrl.parseHost.
  rewrite (split_last_app ":" ns "443" eq_refl).
  change (Str.forallb NodeUrl.is_digit "443") with true.
  unfold NodeUrl.some_if_nonempty at 1 2. rewrite Hne.
  cbv beta iota. cbn [bind is_empty or_empty append].
  fold after.
  assert (Hesc' : NodeUrl.auto_escape after
                  = "/$hc/" ++ p
                      ++ relay_tail (option_map NodeUrl.auto_escape qs)).
  { unfold after. rewrite !auto_escape_app, (auto_escape_plain p Hesc).
    destruct qs; reflexivity. }
  change (NodeUrl.auto_escape (String "/" _))
    with (NodeUrl.auto_escape after).
  rewrite Hesc'. clear Hesc'.
  assert (Hnohash : Str.forallb (fun c => negb (Ascii.eqb "#" c))
                      ("/$hc/" ++ p
                         ++ relay_tail (option_map NodeUrl.auto_escape qs))
                    = true).
  { rewrite !str_forallb_app, Hhash. destruct qs as [q|]; [|reflexivity].
    cbn [option_map relay_tail]. rewrite str_forallb_app.
    now rewrite (auto_escape_no_hash q Hq). }
  rewrite (break_at_all _ _ Hnohash).
  assert (Hpath : Str.forallb (fun c => negb (Ascii.eqb "?" c))
                              ("/$hc/" ++ p) = true)
    by (now rewrite str_forallb_app, Hqm).
  assert (Hbreak : NodeUrl.break_at (Ascii.eqb "?")
                     ("/$hc/" ++ p
                        ++ relay_tail (option_map NodeUrl.auto_escape qs))
                   = ("/$hc/" ++ p,
                      relay_tail (option_map NodeUrl.auto_escape qs))).
  { rewrite <- append_assoc. destruct qs as [q|]; cbn [option_map relay_tail].
    - apply (break_at_stop _ _ "?" _ Hpath eq_refl).
    - rewrite append_empty_r. apply (break_at_all _ _ Hpath). }
  rewrite Hbreak. clear Hbreak.
  eexists. cbn [protocol slashes auth host port hostname hash search query
                pathname path].
  destruct qs as [q|]; reflexivity.
Qed.

(** * Tokens for the URIs that the builders make *)

Lemma escape_pathname_plain (s : string) :
  Str.contains_char "#" s = false -> Str.contains_char "?" s = false ->
  escape_pathname s = s.
Proof.
  intros Hh Hq. unfold escape_pathname.
  now rewrite (replace_all_char_absent _ _ _ Hh),
    (replace_all_char_absent _ _ _ Hq).
Qed.

(** The signed resource of a relay URI, with or without a query. *)
Lemma relay_uri_resource (ns p : string) (qs : option string) :
  plain_host ns = true -> plain_path p = true ->
  match qs with Some q => Str.contains_char "#" q = false | None => True end ->
  signed_resource NodeUrl.parse
    ("wss://" ++ ns ++ ":443/$hc/" ++ p ++ relay_tail qs)
  = Return ("http://" ++ Str.to_lower ns ++ ":443/" ++ p).
Proof.
  intros Hns Hp Hq.
  destruct (parse_relay_uri ns p qs Hns Hp Hq) as (hr & Hu).
  destruct (plain_path_facts p Hp) as (_ & _ & _ & Hh & Hqm).
  rewrite signed_resource_run, Hu. cbn [pathname].
  unfold Str.replace_first.
  change ("/$hc/" ++ p) with ("/" ++ "$hc/" ++ p).
  rewrite (split_at_first "$" "hc/" "/" p eq_refl).
  change ("/" ++ "" ++ p) with (String "/" p).
  unfold url_format, format_host_path, format_host, format_auth,
    format_protocol, format_search, format_hash.
  cbn [protocol slashes auth host port hostname hash search pathname
       set_pathname set_search set_hash set_port set_protocol or_empty].
  rewrite (is_empty_app_r (Str.to_lower ns) ":443" eq_refl).
  assert (He : escape_pathname (String "/" p) = String "/" p).
  { apply escape_pathname_plain; cbn [Str.contains_char];
      [change (Ascii.eqb "#" "/") with false
      | change (Ascii.eqb "?" "/") with false]; assumption. }
  rewrite He. cbn -[Str.to_lower].
  now rewrite append_empty_r, append_assoc.
Qed.

Lemma base_uri_shape ns p :
  createRelayBaseUri ns p
  = "wss://" ++ ns ++ ":443/$hc/" ++ p ++ relay_tail None.
Proof.
  unfold createRelayBaseUri. cbn [relay_tail]. now rewrite append_empty_r.
Qed.

Lemma plain_base_uri_no_question_mark ns p :
  plain_host ns = true -> plain_path p = true ->
  Str.contains_char "?" (createRelayBaseUri ns p) = false.
Proof.
  intros Hns Hp.
  destruct (plain_host_facts ns Hns) as (_ & Hend & _ & _).
  destruct (plain_path_facts p Hp) as (_ & _ & _ & _ & Hqm).
  apply base_uri_no_question_mark; [|exact Hqm].
  apply (str_forallb_not_contains "?" _ ns eq_refl Hend).
Qed.

Lemma send_uri_shape ns p token id :
  plain_host ns = true -> plain_path p = true ->
  exists q,
    Str.contains_char "#" q = false /\
    createRelaySendUri ns p token id
    = "wss://" ++ ns ++ ":443/$hc/" ++ p ++ relay_tail (Some q).
Proof.
  intros Hns Hp.
  rewrite send_uri_parts, (plain_base_uri_no_question_mark ns p Hns Hp).
  eexists. split; [|unfold createRelayBaseUri, relay_tail;
                    rewrite !append_assoc; reflexivity].
  rewrite !contains_char_app.
  destruct token, id; now rewrite ?contains_char_app,
    ?encodeURIComponent_no_hash.
Qed.

Lemma listen_uri_shape ns p token id :
  plain_host ns = true -> plain_path p = true ->
  exists q,
    Str.contains_char "#" q = false /\
    createRelayListenUri ns p token id
    = "wss://" ++ ns ++ ":443/$hc/" ++ p ++ relay_tail (Some q).
Proof.
  intros Hns Hp.
  rewrite listen_uri_parts, (plain_base_uri_no_question_mark ns p Hns Hp).
  eexists. split; [|unfold createRelayBaseUri, relay_tail;
                    rewrite !append_assoc; reflexivity].
  rewrite !contains_char_app.
  destruct token, id; now rewrite ?contains_char_app,
    ?encodeURIComponent_no_hash.
Qed.

(** X16: for a plain namespace and path, the base, send and listen
    URIs all have the signed resource [http://<namespace in lower
    case>:443/<path>]: the port that [createRelayBaseUri] writes stays
    in it, and token and id parameters do not enter. *)
Theorem relay_uris_sign_the_port ns p token id :
  plain_host ns = true -> plain_path p = true ->
  signed_resource NodeUrl.parse (createRelayBaseUri ns p)
  = Return ("http://" ++ Str.to_lower ns ++ ":443/" ++ p) /\
  signed_resource NodeUrl.parse (createRelaySendUri ns p token id)
  = Return ("http://" ++ Str.to_lower ns ++ ":443/" ++ p) /\
  signed_resource NodeUrl.parse (createRelayListenUri ns p token id)
  = Return ("http://" ++ Str.to_lower ns ++ ":443/" ++ p).
Proof.
  intros Hns Hp.
  destruct (send_uri_shape ns p token id Hns Hp) as (qs & Hqs & ->).
  destruct (listen_uri_shape ns p token id Hns Hp) as (ql & Hql & ->).
  rewrite base_uri_shape.
  repeat split; now apply relay_uri_resource.
Qed.

Lemma relay_uris_sign_the_port_witness :
  plain_host "Contoso.ServiceBus.Windows.net" = true /\
  plain_path "foo/bar" = true /\
  signed_resource NodeUrl.parse
    (createRelayListenUri "Contoso.ServiceBus.Windows.net" "foo/bar"
                          (Given "a'b") Null)
  = Return "http://contoso.servicebus.windows.net:443/foo/bar".
Proof.
  split; [reflexivity|]. split; [reflexivity|].
  exact (proj2 (proj2 (relay_uris_sign_the_port
                         "Contoso.ServiceBus.Windows.net" "foo/bar"
                         (Given "a'b") Null eq_refl eq_refl))).
Defined.

(** X17: for a plain namespace and path, [createRelayToken] returns the
    same token for the send URI, the listen URI and the base URI, and
    it does return one. *)
Theorem one_token_for_send_and_listen
        ns p token id token' id' keyName key exp w :
  plain_host ns = true -> plain_path p = true ->
  createRelayToken NodeUrl.parse (createRelaySendUri ns p token id)
                   keyName key exp w
  = createRelayToken NodeUrl.parse (createRelayListenUri ns p token' id')
                     keyName key exp w /\
  createRelayToken NodeUrl.parse (createRelaySendUri ns p token id)
                   keyName key exp w
  = createRelayToken NodeUrl.parse (createRelayBaseUri ns p)
                     keyName key exp w /\
  exists tok,
    createRelayToken NodeUrl.parse (createRelayBaseUri ns p) keyName key exp w
    = (Return tok, w).
Proof.
  intros Hns Hp.
  destruct (send_uri_shape ns p token id Hns Hp) as (qs & Hqs & ->).
  destruct (listen_uri_shape ns p token' id' Hns Hp) as (ql & Hql & ->).
  rewrite base_uri_shape, !createRelayToken_run.
  rewrite (relay_uri_resource ns p (Some qs) Hns Hp Hqs),
    (relay_uri_resource ns p (Some ql) Hns Hp Hql),
    (relay_uri_resource ns p None Hns Hp I).
  repeat split. eexists. reflexivity.
Qed.

Lemma one_token_for_send_and_listen_witness :
  plain_host "contoso.servicebus.windows.net" = true /\
  plain_path "foo" = true /\
  createRelayToken NodeUrl.parse
    (createRelaySendUri "contoso.servicebus.windows.net" "foo" Null
                        (Given "ID1"))
    "k" "secret" Null world_2021
  = createRelayToken NodeUrl.parse
      (createRelayListenUri "contoso.servicebus.windows.net" "foo" Null Null)
      "k" "secret" Null world_2021.
Proof.
  split; [reflexivity|]. split; [reflexivity|].
  exact (proj1 (one_token_for_send_and_listen
                  "contoso.servicebus.windows.net" "foo" Null (Given "ID1")
                  Null Null "k" "secret" Null world_2021 eq_refl eq_refl)).
Defined.

(** [url.format] writes a parsed relay URI back as it was. *)
Lemma format_relay_url (host_name p s : string) pt hn qr pa hr :
  plain_path p = true ->
  Str.starts_with_char "?" s = true -> Str.contains_char "#" s = false ->
  url_format {| protocol := Some "wss:";
                slashes := true;
                auth := None;
                host := Some (host_name ++ ":443");
                port := pt;
                hostname := hn;
                hash := None;
                search := Some s;
                query := qr;
                pathname := Some ("/$hc/" ++ p);
                path := pa;
                href := hr |}
  = "wss://" ++ host_name ++ ":443/$hc/" ++ p ++ s.
Proof.
  intros Hp Hs Hh.
  destruct (plain_path_facts p Hp) as (_ & _ & _ & Hph & Hpq).
  unfold url_format, format_host_path, format_host, format_protocol,
    format_search, format_hash, format_auth.
  cbn [protocol slashes host hash search pathname auth or_empty].
  rewrite (is_empty_app_r host_name ":443" eq_refl).
  rewrite (replace_all_char_absent _ _ s Hh).
  assert (He : escape_pathname ("/$hc/" ++ p) = "/$hc/" ++ p).
  { apply escape_pathname_plain; rewrite contains_char_app;
      [now rewrite Hph | now rewrite Hpq]. }
  rewrite He, Hs.
  destruct s as [|c s]; [discriminate|].
  cbn. now rewrite !append_assoc, ?append_empty_r.
Qed.

Lemma append_token_to_relay_uri (ns p action : string) keyName key exp w :
  plain_host ns = true -> plain_path p = true ->
  Str.forallb (fun c => negb (NodeUrl.auto_escaped c)) action = true ->
  Str.contains_char "#" action = false ->
  exists tok,
    createRelayToken NodeUrl.parse
      ("wss://" ++ ns ++ ":443/$hc/" ++ p ++ "?sb-hc-action=" ++ action)
      keyName key exp w
    = (Return tok, w) /\
    appendRelayToken NodeUrl.parse
      ("wss://" ++ ns ++ ":443/$hc/" ++ p ++ "?sb-hc-action=" ++ action)
      keyName key exp w
    = (Return ("wss://" ++ Str.to_lower ns ++ ":443/$hc/" ++ p
                 ++ "?sb-hc-action=" ++ action
                 ++ "&sb-hc-token=" ++ encodeURIComponent tok), w).
Proof.
  intros Hns Hp Ha Hah.
  assert (Hq : Str.contains_char "#" ("sb-hc-action=" ++ action) = false)
    by (now rewrite contains_char_app, Hah).
  destruct (parse_relay_uri ns p (Some ("sb-hc-action=" ++ action)) Hns Hp Hq)
    as (hr & Hu).
  pose proof (relay_uri_resource ns p (Some ("sb-hc-action=" ++ action))
                Hns Hp Hq) as Hr.
  cbn [relay_tail option_map] in Hu, Hr.
  rewrite auto_escape_app, (auto_escape_plain action Ha) in Hu.
  change (NodeUrl.auto_escape "sb-hc-action=") with "sb-hc-action=" in Hu.
  change ("?" ++ "sb-hc-action=" ++ action)
    with ("?sb-hc-action=" ++ action) in Hu, Hr.
  eexists. split.
  - rewrite createRelayToken_run, Hr. reflexivity.
  - unfold appendRelayToken, mbind.
    rewrite createRelayToken_run, Hr. unfold lift, ret. rewrite Hu.
    f_equal. f_equal. etransitivity.
    + apply (format_relay_url (Str.to_lower ns) p); [exact Hp | reflexivity |].
      cbn [search to_string_field].
      rewrite !contains_char_app, Hah, encodeURIComponent_no_hash.
      reflexivity.
    + cbn [search to_string_field]. now rewrite !append_assoc.
Qed.

(** X18: for a plain, lower-case namespace and a plain path, and
    without token and id, [appendRelayToken] on a send or listen URI
    returns that URI followed by [&sb-hc-token=] and the encoded token
    that [createRelayToken] issues for it. *)
Theorem appendRelayToken_of_relay_uri ns p token id keyName key exp w :
  plain_host ns = true -> plain_path p = true -> Str.to_lower ns = ns ->
  not_nullish token = false -> not_nullish id = false ->
  (exists tok,
      createRelayToken NodeUrl.parse (createRelaySendUri ns p token id)
                       keyName key exp w
      = (Return tok, w) /\
      appendRelayToken NodeUrl.parse (createRelaySendUri ns p token id)
                       keyName key exp w
      = (Return (createRelaySendUri ns p token id
                   ++ "&sb-hc-token=" ++ encodeURIComponent tok), w)) /\
  (exists tok,
      createRelayToken NodeUrl.parse (createRelayListenUri ns p token id)
                       keyName key exp w
      = (Return tok, w) /\
      appendRelayToken NodeUrl.parse (createRelayListenUri ns p token id)
                       keyName key exp w
      = (Return (createRelayListenUri ns p token id
                   ++ "&sb-hc-token=" ++ encodeURIComponent tok), w)).
Proof.
  intros Hns Hp Hl Ht Hi.
  assert (Es : createRelaySendUri ns p token id
               = "wss://" ++ ns ++ ":443/$hc/" ++ p
                   ++ "?sb-hc-action=" ++ "connect").
  { rewrite send_uri_parts, (plain_base_uri_no_question_mark ns p Hns Hp).
    unfold createRelayBaseUri.
    destruct token; try discriminate; destruct id; try discriminate;
      now rewrite !append_assoc, ?append_empty_r. }
  assert (El : createRelayListenUri ns p token id
               = "wss://" ++ ns ++ ":443/$hc/" ++ p
                   ++ "?sb-hc-action=" ++ "listen").
  { rewrite listen_uri_parts, (plain_base_uri_no_question_mark ns p Hns Hp).
    unfold createRelayBaseUri.
    destruct token; try discriminate; destruct id; try discriminate;
      now rewrite !append_assoc, ?append_empty_r. }
  rewrite Es, El. split.
  - destruct (append_token_to_relay_uri ns p "connect" keyName key exp w
                Hns Hp eq_refl eq_refl) as (tok & H1 & H2).
    exists tok. rewrite Hl in H2. rewrite H1, H2.
    split; [reflexivity|]. now rewrite !append_assoc.
  - destruct (append_token_to_relay_uri ns p "listen" keyName key exp w
                Hns Hp eq_refl eq_refl) as (tok & H1 & H2).
    exists tok. rewrite Hl in H2. rewrite H1, H2.
    split; [reflexivity|]. now rewrite !append_assoc.
Qed.

Lemma appendRelayToken_of_relay_uri_witness :
  plain_host "contoso.servicebus.windows.net" = true /\
  plain_path "foo" = true /\
  Str.to_lower "contoso.servicebus.windows.net"
  = "contoso.servicebus.windows.net" /\
  not_nullish (@Null string) = false /\
  not_nullish (@Undefined string) = false /\
  exists tok,
    createRelayToken NodeUrl.parse
      (createRelaySendUri "contoso.servicebus.windows.net" "foo"
                          Null Undefined)
      "k" "secret" Null world_2021
    = (Return tok, world_2021) /\
    appendRelayToken NodeUrl.parse
      (createRelaySendUri "contoso.servicebus.windows.net" "foo"
                          Null Undefined)
      "k" "secret" Null world_2021
    = (Return (createRelaySendUri "contoso.servicebus.windows.net" "foo"
                                  Null Undefined
                 ++ "&sb-hc-token=" ++ encodeURIComponent tok), world_2021).
Proof.
  split; [reflexivity|]. split; [reflexivity|]. split; [reflexivity|].
  split; [reflexivity|]. split; [reflexivity|].
  exact (proj1 (appendRelayToken_of_relay_uri
                  "contoso.servicebus.windows.net" "foo" Null Undefined
                  "k" "secret" Null world_2021
                  eq_refl eq_refl eq_refl eq_refl eq_refl)).
Defined.
